(** * A shallow embedding of the Turing machine simulator (turing.py)

    The development follows the layout of the program:

    - [Py]       the few Python builtins the program relies on
                 ([int], [str.lower], the regular-expression classes);
    - [Tape]     the tape the engine owns (module [tape], imported by
                 turing.py);
    - the class [TuringMachine]: [reset], the [tape] setter, [find_rule],
      [step] and [run];
    - [ReadRules] the rule-file reader [_read_rules];
    - the loading part of the [__main__] block.

    Characters are code points below 256 ([ascii]); a Python [str] is a
    [string].  Exceptions are values of [exn]; a method that can raise
    returns the object as it is left behind together with the exception.
    Output written to the terminal ([print_state] and friends) and the
    pause between automatic steps are not part of the model. *)

From Stdlib Require Import ZArith Ascii String Lia.
From stdpp Require Import gmap strings list.

Local Open Scope string_scope.
Local Open Scope Z_scope.

(** The exceptions of the program, and the two builtin ones it can run
    into. *)
Inductive exn : Type :=
| TapeBlank
| RuleNotFound (state char : string)
| IncorrectSymbolCount (count : nat)
| ValueError (literal : string)
| NameError (name : string).

(* ------------------------------------------------------------------ *)
(** ** Python builtins *)

Module Py.

Definition code (c : ascii) : N := N_of_ascii c.

Definition between (lo hi : N) (c : ascii) : bool :=
  ((lo <=? code c) && (code c <=? hi))%N.

Definition is_decimal (c : ascii) : bool := between 48 57 c.

(** [\s] on a [str] pattern: the characters for which [str.isspace]
    holds. *)
Definition re_space (c : ascii) : bool :=
  between 9 13 c || between 28 32 c
  || (code c =? 133)%N || (code c =? 160)%N.

(** [\w] on a [str] pattern: the alphanumeric characters and the
    underscore. *)
Definition re_word (c : ascii) : bool :=
  is_decimal c || between 65 90 c || between 97 122 c
  || (code c =? 95)%N
  || (code c =? 170)%N || (code c =? 178)%N || (code c =? 179)%N
  || (code c =? 181)%N || (code c =? 185)%N || (code c =? 186)%N
  || between 188 190 c
  || between 192 214 c || between 216 246 c || between 248 255 c.

(** [str.lower], one character. *)
Definition lower_char (c : ascii) : ascii :=
  if between 65 90 c || between 192 214 c || between 216 222 c
  then ascii_of_N (code c + 32)
  else c.

Fixpoint lower (s : string) : string :=
  match s with
  | EmptyString => EmptyString
  | String c s' => String (lower_char c) (lower s')
  end.

(** [s += char] *)
Definition append_char (s : string) (c : ascii) : string :=
  s +:+ String c EmptyString.

(** Truth value of a [str]. *)
Definition truthy (s : string) : bool :=
  match s with EmptyString => false | _ => true end.

(** The white space that [int] drops around a literal: the ASCII
    characters tab to carriage return and the space, and the white space
    above the ASCII range.  The separators 28 to 31, white space for
    [\s], are not among them. *)
Definition int_space (c : ascii) : bool :=
  between 9 13 c || (code c =? 32)%N || (code c =? 133)%N || (code c =? 160)%N.

(** The interpreter's limit on the number of digits of a literal
    ([sys.int_max_str_digits], at its default). *)
Definition MAX_STR_DIGITS : N := 4300.

(** [int(s)] for a [str]: surrounding white space is dropped, then an
    optional sign, then decimal digits in which single underscores may
    separate digits; more digits than the limit are refused.  [None]
    stands for [ValueError]. *)
Fixpoint lstrip (cs : list ascii) : list ascii :=
  match cs with
  | c :: cs' => if int_space c then lstrip cs' else cs
  | [] => []
  end.

Definition strip (cs : list ascii) : list ascii :=
  rev (lstrip (rev (lstrip cs))).

Fixpoint digits (acc : Z) (after_digit : bool) (cs : list ascii)
  : option Z :=
  match cs with
  | [] => if after_digit then Some acc else None
  | c :: cs' =>
      if is_decimal c
      then digits (10 * acc + (Z.of_N (code c) - 48)) true cs'
      else if (code c =? 95)%N && after_digit
           then digits acc false cs'
           else None
  end.

Definition literal (ds : list ascii) : option Z :=
  if (MAX_STR_DIGITS <? N.of_nat (length (List.filter is_decimal ds)))%N
  then None
  else digits 0 false ds.

Definition int (s : string) : option Z :=
  match strip (list_ascii_of_string s) with
  | "-"%char :: ds => Z.opp <$> literal ds
  | "+"%char :: ds => literal ds
  | ds => literal ds
  end.

End Py.

(* ------------------------------------------------------------------ *)
(** ** The tape *)

Module Tape.

(** Modelled from the spec: the class [Tape] of module [tape], which
    turing.py imports and whose source is not at hand.  A tape is a
    mapping from signed integer positions to symbols; a position never
    written reads as the blank symbol; reading and writing succeed at
    every position; a tape built from the empty string holds no symbol
    at all and counts as blank. *)
Record t : Type := Make { cells : gmap Z string }.

(** Modelled from the spec: the blank symbol, written [_]. *)
Definition BLANK : string := "_".

(** Modelled from the spec: the characters of [value], one per cell,
    from position [pos] on. *)
Fixpoint fill (pos : Z) (value : string) (m : gmap Z string)
  : gmap Z string :=
  match value with
  | EmptyString => m
  | String c rest => fill (pos + 1) rest (<[pos := String c EmptyString]> m)
  end.

(** Modelled from the spec: [Tape(value)], the tape built from an input
    string; [Tape()] is [new ""]. *)
Definition new (value : string) : t := Make (fill 0 value ∅).

(** Modelled from the spec: [tape[position]], the stored symbol or the
    blank symbol. *)
Definition get (tp : t) (position : Z) : string :=
  default BLANK (cells tp !! position).

(** Modelled from the spec: [tape[position] = symbol]. *)
Definition set (tp : t) (position : Z) (symbol : string) : t :=
  Make (<[position := symbol]> (cells tp)).

(** Modelled from the spec: [not tape], true of a tape without any
    symbol. *)
Definition is_blank (tp : t) : bool :=
  bool_decide (cells tp = ∅).

End Tape.

(* ------------------------------------------------------------------ *)
(** ** Rules *)

(** A rule is a 5-tuple of strings, as the reader produces them:
    [current_state, current_symbol, next_state, next_symbol,
    head_direction] (indices 0 to 4).  On strings [str(x)] is [x]. *)
Record Rule : Type := mkRule {
  current_state : string;
  current_symbol : string;
  next_state : string;
  next_symbol : string;
  head_direction : string
}.

(* ------------------------------------------------------------------ *)
(** ** The class TuringMachine *)

Module TuringMachine.

Definition WILDCARD : string := "*".

(** The attributes of an instance that the engine reads or writes.
    [STATE_INIT] and [STATE_HALT] are attributes too: the [__main__]
    block overrides them on the instance.  [rule] is the last rule
    applied ([None] before the first step).  The display switches and
    [live_stdout_maxlen] only matter to the print functions. *)
Record t : Type := Make {
  rules : list Rule;
  STATE_INIT : string;
  STATE_HALT : string;
  state : string;
  head : Z;
  rule : option Rule;
  _tape : Tape.t;
  stepc : nat;
  head_moves : nat;
  path : list string
}.

Definition set_STATE_INIT (v : string) (self : t) : t :=
  Make (rules self) v (STATE_HALT self) (state self) (head self)
       (rule self) (_tape self) (stepc self) (head_moves self) (path self).
Definition set_STATE_HALT (v : string) (self : t) : t :=
  Make (rules self) (STATE_INIT self) v (state self) (head self)
       (rule self) (_tape self) (stepc self) (head_moves self) (path self).
Definition set_state (v : string) (self : t) : t :=
  Make (rules self) (STATE_INIT self) (STATE_HALT self) v (head self)
       (rule self) (_tape self) (stepc self) (head_moves self) (path self).
Definition set_head (v : Z) (self : t) : t :=
  Make (rules self) (STATE_INIT self) (STATE_HALT self) (state self) v
       (rule self) (_tape self) (stepc self) (head_moves self) (path self).
Definition set_rule (v : option Rule) (self : t) : t :=
  Make (rules self) (STATE_INIT self) (STATE_HALT self) (state self)
       (head self) v (_tape self) (stepc self) (head_moves self) (path self).
Definition set__tape (v : Tape.t) (self : t) : t :=
  Make (rules self) (STATE_INIT self) (STATE_HALT self) (state self)
       (head self) (rule self) v (stepc self) (head_moves self) (path self).
Definition set_stepc (v : nat) (self : t) : t :=
  Make (rules self) (STATE_INIT self) (STATE_HALT self) (state self)
       (head self) (rule self) (_tape self) v (head_moves self) (path self).
Definition set_head_moves (v : nat) (self : t) : t :=
  Make (rules self) (STATE_INIT self) (STATE_HALT self) (state self)
       (head self) (rule self) (_tape self) (stepc self) v (path self).
Definition set_path (v : list string) (self : t) : t :=
  Make (rules self) (STATE_INIT self) (STATE_HALT self) (state self)
       (head self) (rule self) (_tape self) (stepc self) (head_moves self) v.

(** [TuringMachine(rules)]: the class-level defaults and the rules.
    The class gives [head] the label ['0'] as its default; nothing
    reads it before [reset] stores the integer 0, so the model starts
    from 0.  [_tape] starts as [Tape()]. *)
Definition __init__ (rules : list Rule) : t :=
  Make rules "1" "0" "1" 0 None (Tape.new "") 0 0 [].

(** [reset()] *)
Definition reset (self : t) : t :=
  let self := set_state (STATE_INIT self) self in
  let self := set_head 0 self in
  let self := set_rule None self in
  let self := set_stepc 0 self in
  let self := set_head_moves 0 self in
  set_path [STATE_INIT self] self.

(** [self.tape = value] *)
Definition tape_setter (value : string) (self : t) : t :=
  let self := set__tape (Tape.new value) self in
  reset self.

(** The test of the loop in [find_rule]. *)
Definition rule_matches (state scan : string) (r : Rule) : bool :=
  String.eqb (current_state r) state
  && (String.eqb (current_symbol r) scan
      || String.eqb (current_symbol r) WILDCARD).

Fixpoint find_rule_in (rs : list Rule) (state scan : string)
  : Rule + exn :=
  match rs with
  | [] => inr (RuleNotFound state scan)
  | r :: rs' =>
      if rule_matches state scan r then inl r
      else find_rule_in rs' state scan
  end.

(** [find_rule(state, scan)] *)
Definition find_rule (self : t) (state scan : string) : Rule + exn :=
  find_rule_in (rules self) state scan.

(** [step()]: the machine as the call leaves it, and the exception
    raised, if any. *)
Definition step (self : t) : t * option exn :=
  if Tape.is_blank (_tape self) then (self, Some TapeBlank)
  else
    let self := set_stepc (S (stepc self)) self in
    let scan := Tape.get (_tape self) (head self) in
    match find_rule self (state self) scan with
    | inr e => (self, Some e)
    | inl r =>
        let self := set_rule (Some r) self in
        let replace :=
          if negb (String.eqb (next_symbol r) WILDCARD)
          then next_symbol r else scan in
        let self := set__tape (Tape.set (_tape self) (head self) replace) self in
        match Py.int (head_direction r) with
        | None => (self, Some (ValueError (head_direction r)))
        | Some head_direction =>
            let self := set_state (next_state r) self in
            let self := set_head (head self + head_direction) self in
            let self :=
              if head_direction =? 0 then self
              else set_head_moves (S (head_moves self)) self in
            let self := set_path (path self ++ [state self]) self in
            (self, None)
        end
    end.

(** The ways a call of [run] can end within a given number of loop
    iterations. *)
Inductive run_result : Type :=
| Returned (self : t) (tape : Tape.t)
| Raised (self : t) (e : exn)
| Running (self : t).

(** [run()], cut off after [fuel] iterations of its loop. *)
Fixpoint run (fuel : nat) (self : t) : run_result :=
  if negb (String.eqb (state self) (STATE_HALT self)) then
    match fuel with
    | O => Running self
    | S fuel' =>
        match step self with
        | (self', Some e) => Raised self' e
        | (self', None) => run fuel' self'
        end
    end
  else Returned self (_tape self).

(** [n] calls of [step] in a row, none of which raises. *)
Fixpoint steps (n : nat) (self : t) : option t :=
  match n with
  | O => Some self
  | S n' =>
      match step self with
      | (self', None) => steps n' self'
      | (_, Some _) => None
      end
  end.

End TuringMachine.


(* ------------------------------------------------------------------ *)
(** ** The rule-file reader *)

Module ReadRules.

(** The three values of the variable [state] of [_read_rules]. *)
Inductive mode : Type := Std | Cfg | Cmt.

(** The variables that [state_reader] shares with [_read_rules]. *)
Record vars : Type := Make {
  rules : list Rule;
  cfg : gmap string string;
  tup_buf : list string;
  sym_buf : string;
  cfg_buf : string;
  symc : nat;
  state : mode
}.

Definition init : vars := Make [] ∅ [] "" "" 0 Std.

Definition newline : ascii := "010"%char.

(** [match("[-\w\*]", char)] *)
Definition symbol_char (char : ascii) : bool :=
  Ascii.eqb char "-" || Py.re_word char || Ascii.eqb char "*".

(** [match("[^\s\:]", char)] *)
Definition value_char (char : ascii) : bool :=
  negb (Py.re_space char || Ascii.eqb char ":").

(** The first [if] of [state_reader], entered when [state == 'std']. *)
Definition reader_std (char : ascii) (eof : bool) (v : vars) : vars :=
  if symbol_char char && negb eof then
    Make (rules v) (cfg v) (tup_buf v) (Py.append_char (sym_buf v) char)
         (cfg_buf v) (symc v) (state v)
  else if Ascii.eqb char ":" && negb eof then
    Make (rules v) (cfg v) (tup_buf v) "" (Py.lower (sym_buf v)) (symc v) Cfg
  else if Py.truthy (sym_buf v) then
    match (tup_buf v ++ [sym_buf v])%list with
    | [a; b; c; d; e] =>
        Make (rules v ++ [mkRule a b c d e]) (cfg v) [] ""
             (cfg_buf v) (S (symc v)) (state v)
    | tup =>
        Make (rules v) (cfg v) tup "" (cfg_buf v) (S (symc v)) (state v)
    end
  else if Ascii.eqb char "#" then
    Make (rules v) (cfg v) (tup_buf v) (sym_buf v) (cfg_buf v) (symc v) Cmt
  else v.

(** The second [if] of [state_reader], entered when [state == 'cfg']. *)
Definition reader_cfg (char : ascii) (eof : bool) (v : vars) : vars :=
  if value_char char && negb eof then
    Make (rules v) (cfg v) (tup_buf v) (Py.append_char (sym_buf v) char)
         (cfg_buf v) (symc v) (state v)
  else if Py.truthy (sym_buf v) then
    Make (rules v) (<[cfg_buf v := sym_buf v]> (cfg v)) (tup_buf v) "" ""
         (symc v) Std
  else v.

(** Its [elif], entered when [state == 'cmt']. *)
Definition reader_cmt (char : ascii) (v : vars) : vars :=
  if Ascii.eqb char newline then
    Make (rules v) (cfg v) (tup_buf v) (sym_buf v) (cfg_buf v) (symc v) Std
  else v.

(** One call of [state_reader] with the current [char] and [eof]. *)
Definition state_reader (char : ascii) (eof : bool) (v : vars) : vars :=
  let v := match state v with Std => reader_std char eof v | _ => v end in
  match state v with
  | Cfg => reader_cfg char eof v
  | Cmt => reader_cmt char v
  | Std => v
  end.

(** The two nested [for] loops: one call per character of the file. *)
Fixpoint feed (v : vars) (text : list ascii) : vars :=
  match text with
  | [] => v
  | char :: text' => feed (state_reader char false v) text'
  end.

(** [_read_rules(file)], on the characters of the file.  The call made
    after the loops reads [char] again: it is the last character of the
    file, and it is unbound when the file has none. *)
Definition _read_rules (text : list ascii)
  : (list Rule * gmap string string) + exn :=
  match last text with
  | None => inr (NameError "char")
  | Some char =>
      let v := state_reader char true (feed init text) in
      if negb (symc v mod 5 =? 0)%nat
      then inr (IncorrectSymbolCount (symc v))
      else inl (rules v, cfg v)
  end.

(** The same on a file given as one string. *)
Definition read_file (file : string) :=
  _read_rules (list_ascii_of_string file).

End ReadRules.

(* ------------------------------------------------------------------ *)
(** ** The __main__ block *)

(** From the parsed file to the machine: the constructor and the two
    overrides. *)
Definition main_load (parsed : list Rule * gmap string string)
  : TuringMachine.t :=
  let turing := TuringMachine.__init__ parsed.1 in
  let turing :=
    match parsed.2 !! "init" with
    | Some v => TuringMachine.set_STATE_INIT v turing
    | None => turing
    end in
  match parsed.2 !! "halt" with
  | Some v => TuringMachine.set_STATE_HALT v turing
  | None => turing
  end.

(** [turing.tape = tape] followed by [turing.run()]. *)
Definition main_run (fuel : nat) (turing : TuringMachine.t) (tape : string)
  : TuringMachine.run_result :=
  TuringMachine.run fuel (TuringMachine.tape_setter tape turing).


(* ------------------------------------------------------------------ *)
(** ** Specification predicates *)

(** A rule covers a pair of a state and a scanned symbol when it starts
    from that state and its symbol is the scanned one or the wildcard. *)
Definition covers (state scan : string) (r : Rule) : Prop :=
  current_state r = state
  /\ (current_symbol r = scan \/ current_symbol r = TuringMachine.WILDCARD).

(** What terminal failures of [step] the specification names. *)
Definition engine_failure (e : exn) : Prop :=
  e = TapeBlank \/ exists state scan, e = RuleNotFound state scan.

(** Two machines agree on every attribute of the machine state and on
    the tape. *)
Definition same_machine_state (a b : TuringMachine.t) : Prop :=
  TuringMachine.stepc a = TuringMachine.stepc b
  /\ TuringMachine.head a = TuringMachine.head b
  /\ TuringMachine.state a = TuringMachine.state b
  /\ TuringMachine.path a = TuringMachine.path b
  /\ TuringMachine.rule a = TuringMachine.rule b
  /\ TuringMachine.head_moves a = TuringMachine.head_moves b
  /\ forall p, Tape.get (TuringMachine._tape a) p
               = Tape.get (TuringMachine._tape b) p.

(** The symbol [step] writes for rule [r] over the scanned symbol. *)
Definition written (r : Rule) (scan : string) : string :=
  if negb (String.eqb (next_symbol r) TuringMachine.WILDCARD)
  then next_symbol r else scan.

(** The path of a machine started from the label [init]: one entry per
    step made and one for the start, from [init] to the current state. *)
Definition path_invariant (init : string) (self : TuringMachine.t) : Prop :=
  length (TuringMachine.path self) = S (TuringMachine.stepc self)
  /\ TuringMachine.path self !! 0%nat = Some init
  /\ last (TuringMachine.path self) = Some (TuringMachine.state self).

(** No machine met in the first [n] steps from [self] is in state
    [label]. *)
Definition not_before (n : nat) (label : string) (self : TuringMachine.t)
  : Prop :=
  forall k mid,
    (k < n)%nat ->
    TuringMachine.steps k self = Some mid ->
    TuringMachine.state mid <> label.

(** The tokens the reader has stored so far, in the order read: those of
    the finished rules, then those waiting in the tuple buffer. *)
Definition rule_tokens (r : Rule) : list string :=
  [current_state r; current_symbol r; next_state r; next_symbol r;
   head_direction r].

Definition stored_tokens (v : ReadRules.vars) : list string :=
  (List.concat (List.map rule_tokens (ReadRules.rules v))
   ++ ReadRules.tup_buf v)%list.

(** The variables of the reader once the whole file has been read and
    the closing call of [state_reader] has been made. *)
Definition end_of_file (text : list ascii) : ReadRules.vars :=
  ReadRules.state_reader (default ReadRules.newline (last text)) true
                         (ReadRules.feed ReadRules.init text).

(** The reader's variables are consistent: the counter counts the tokens
    stored, and the tuple buffer holds fewer than five of them. *)
Definition reader_invariant (v : ReadRules.vars) : Prop :=
  length (stored_tokens v) = ReadRules.symc v
  /\ (length (ReadRules.tup_buf v) < 5)%nat.

(* ------------------------------------------------------------------ *)
(** ** Sample machines and files *)

(** Unary increment: move right over the ones, write a one on the first
    blank and halt. *)
Definition increment_rules : list Rule :=
  [mkRule "1" "1" "1" "1" "1"; mkRule "1" "_" "0" "1" "0"].

Definition increment_machine : TuringMachine.t :=
  TuringMachine.tape_setter "111" (TuringMachine.__init__ increment_rules).

(** A machine with a tape but without any rule. *)
Definition ruleless_machine : TuringMachine.t :=
  TuringMachine.tape_setter "a" (TuringMachine.__init__ []).

(** A machine whose only rule has direction 2. *)
Definition leaping_machine : TuringMachine.t :=
  TuringMachine.tape_setter
    "abc" (TuringMachine.__init__ [mkRule "1" "*" "0" "*" "2"]).

(** A machine whose halting label is its initial label. *)
Definition halted_machine : TuringMachine.t :=
  TuringMachine.tape_setter
    "ab" (TuringMachine.set_STATE_HALT "1" (TuringMachine.__init__ [])).

(** A rule file that renames both labels and passes through the state
    ["0"] on its way to ["Z"]. *)
Definition relabelled_file : list ascii :=
  (list_ascii_of_string "init: A halt: Z" ++ [ReadRules.newline]
   ++ list_ascii_of_string "A * 0 * 1" ++ [ReadRules.newline]
   ++ list_ascii_of_string "0 * Z * 0" ++ [ReadRules.newline])%list.

Definition relabelled_parsed : list Rule * gmap string string :=
  ([mkRule "A" "*" "0" "*" "1"; mkRule "0" "*" "Z" "*" "0"],
   <["halt" := "Z"]> (<["init" := "A"]> ∅)).

(** A file in which a [#] follows a symbol directly. *)
Definition hash_after_symbol_file : list ascii :=
  (list_ascii_of_string "a#b c d e" ++ [ReadRules.newline])%list.

(** Three pieces of a file: symbols, a comment, more symbols. *)
Definition before_comment : list ascii := list_ascii_of_string "1 _ 0 ".
Definition comment_body : list ascii := list_ascii_of_string " x y: z".
Definition after_comment : list ascii := list_ascii_of_string "1 0".

(** The machine after [n] calls of [step] (the machine itself when one
    of them raises). *)
Definition after (n : nat) (self : TuringMachine.t) : TuringMachine.t :=
  default self (TuringMachine.steps n self).

(** The machine loaded from the relabelled file, with the tape ["ab"]. *)
Definition relabelled_machine : TuringMachine.t :=
  TuringMachine.tape_setter "ab" (main_load relabelled_parsed).

(** What a caller can observe once [run] has returned: the state, the
    head, both counters, the path, and the tape around the origin. *)
Definition observe (r : TuringMachine.run_result)
  : option (string * Z * nat * nat * list string * list string) :=
  match r with
  | TuringMachine.Returned self tp =>
      Some (TuringMachine.state self, TuringMachine.head self,
            TuringMachine.stepc self, TuringMachine.head_moves self,
            TuringMachine.path self,
            map (Tape.get tp) [-1; 0; 1; 2; 3; 4])
  | _ => None
  end.

(* ------------------------------------------------------------------ *)
(** ** Stepping mode *)

(** How a call of [_stepping_mode] stands once the keys at hand have been
    read: it has returned, a step has raised, Ctrl+C has raised
    [KeyboardInterrupt], or it waits for the next key.  Each carries the
    machine and its [verbose] switch. *)
Inductive stepping_result : Type :=
| KeyReturned (turing : TuringMachine.t) (verbose : bool)
| KeyRaised (turing : TuringMachine.t) (verbose : bool) (e : exn)
| KeyInterrupt (turing : TuringMachine.t) (verbose : bool)
| KeyWaiting (turing : TuringMachine.t) (verbose : bool).

(** [_stepping_mode(turing)], on the keys that [keypress()] delivers one
    after the other. *)
Fixpoint _stepping_mode (keys : list ascii) (verbose : bool)
    (turing : TuringMachine.t) : stepping_result :=
  match keys with
  | [] => KeyWaiting turing verbose
  | x :: keys' =>
      if (Py.code x =? 3)%N then KeyInterrupt turing verbose
      else
        let verbose := if Ascii.eqb x "i" then negb verbose else verbose in
        match TuringMachine.step turing with
        | (turing', Some e) => KeyRaised turing' verbose e
        | (turing', None) =>
            if String.eqb (TuringMachine.state turing')
                          (TuringMachine.STATE_HALT turing')
            then KeyReturned turing' verbose
            else _stepping_mode keys' verbose turing'
        end
  end.

(** What stepping mode and [run] have in common when both end the same
    way. *)
Definition same_ending (k : stepping_result) (r : TuringMachine.run_result)
  : Prop :=
  match k with
  | KeyReturned turing _ =>
      r = TuringMachine.Returned turing (TuringMachine._tape turing)
  | KeyRaised turing _ e => r = TuringMachine.Raised turing e
  | KeyWaiting turing _ => r = TuringMachine.Running turing
  | KeyInterrupt _ _ => False
  end.

(* ------------------------------------------------------------------ *)
(** ** Writing rules out *)

(** A symbol as the reader delivers them: not empty, made of the
    characters of [symbol_char]. *)
Definition symbolb (tok : string) : bool :=
  Py.truthy tok && forallb ReadRules.symbol_char (list_ascii_of_string tok).

(** A character that ends a symbol without starting anything else. *)
Definition delimiterb (d : ascii) : bool :=
  negb (ReadRules.symbol_char d) && negb (Ascii.eqb d ":").

(** The tokens, with one delimiter between two of them. *)
Fixpoint join_tokens (d : ascii) (toks : list string) : list ascii :=
  match toks with
  | [] => []
  | [tok] => list_ascii_of_string tok
  | tok :: toks' => list_ascii_of_string tok ++ d :: join_tokens d toks'
  end.

Definition write_rules (d : ascii) (rs : list Rule) : list ascii :=
  join_tokens d (List.concat (List.map rule_tokens rs)).

(** What [state_reader] does with a finished symbol: the branch
    [elif sym_buf] of its first [if]. *)
Definition store_symbol (tok : string) (v : ReadRules.vars) : ReadRules.vars :=
  match (ReadRules.tup_buf v ++ [tok])%list with
  | [a; b; c; d; e] =>
      ReadRules.Make (ReadRules.rules v ++ [mkRule a b c d e]) (ReadRules.cfg v)
                     [] "" (ReadRules.cfg_buf v) (S (ReadRules.symc v))
                     (ReadRules.state v)
  | tup =>
      ReadRules.Make (ReadRules.rules v) (ReadRules.cfg v) tup ""
                     (ReadRules.cfg_buf v) (S (ReadRules.symc v))
                     (ReadRules.state v)
  end.

(** What [_read_rules] returns or raises from the variables left by the
    closing call. *)
Definition outcome (v : ReadRules.vars)
  : (list Rule * gmap string string) + exn :=
  if negb (ReadRules.symc v mod 5 =? 0)%nat
  then inr (IncorrectSymbolCount (ReadRules.symc v))
  else inl (ReadRules.rules v, ReadRules.cfg v).

(** A rule that keeps the machine in [state] whatever it scans. *)
Definition self_loop (state : string) (r : Rule) : Prop :=
  current_state r = state
  /\ current_symbol r = TuringMachine.WILDCARD
  /\ next_state r = state
  /\ exists d, Py.int (head_direction r) = Some d.

(** More samples. *)
Definition spinning_machine : TuringMachine.t :=
  TuringMachine.tape_setter
    "ab" (TuringMachine.__init__ [mkRule "1" "*" "1" "x" "1"]).

Definition misdirected_machine : TuringMachine.t :=
  TuringMachine.tape_setter
    "ab" (TuringMachine.__init__ [mkRule "1" "a" "0" "b" "R"]).

(* ------------------------------------------------------------------ *)
(** ** The symbols of a file, read off its text *)

(** The characters of a symbol: the letters, the digits, the underscore,
    the star and the hyphen, and above the ASCII range whatever counts as
    a word character. *)
Definition alphabet : string :=
  "ABCDEFGHIJKLMNOPQRSTUVWXYZabcdefghijklmnopqrstuvwxyz0123456789_*-".

Definition token_char (c : ascii) : bool :=
  existsb (Ascii.eqb c) (list_ascii_of_string alphabet)
  || ((128 <=? Py.code c)%N && Py.re_word c).

(** White space, by code. *)
Definition white_space : list N :=
  [9; 10; 11; 12; 13; 28; 29; 30; 31; 32; 133; 160]%N.

(** The characters of a configuration value: anything but white space
    and the colon. *)
Definition in_value (c : ascii) : bool :=
  negb (existsb (N.eqb (Py.code c)) white_space || Ascii.eqb c ":").

(** The longest prefix of [text] within [p], and what follows it. *)
Fixpoint span (p : ascii -> bool) (text : list ascii)
  : list ascii * list ascii :=
  match text with
  | c :: text' =>
      if p c then (c :: (span p text').1, (span p text').2) else ([], text)
  | [] => ([], [])
  end.

(** What follows the first newline of [text]. *)
Fixpoint after_newline (text : list ascii) : list ascii :=
  match text with
  | c :: text' =>
      if Ascii.eqb c ReadRules.newline then text' else after_newline text'
  | [] => []
  end.

(** A word, when there is one, is a symbol. *)
Definition emit (word : list ascii) (symbols : list string) : list string :=
  match word with
  | [] => symbols
  | _ => string_of_list_ascii word :: symbols
  end.

(** The symbols of a text, from left to right.  A word is a longest run
    of symbol characters.  A word, even an empty one, followed by a colon
    is a configuration key: it is no symbol, and neither is its value,
    the run of value characters after the white space and colons that
    follow; the character that ends the value goes with it.  A [#] where
    no word precedes it opens a comment that runs up to and including the
    next newline.  Any other character only ends the word before it. *)
Fixpoint lex (fuel : nat) (text : list ascii) : list string :=
  match fuel with
  | O => []
  | S fuel' =>
      let word := (span token_char text).1 in
      match (span token_char text).2 with
      | [] => emit word []
      | c :: rest =>
          if Ascii.eqb c ":" then
            let value_on := (span (fun b => negb (in_value b)) rest).2 in
            lex fuel' (tail (span in_value value_on).2)
          else if Ascii.eqb c "#" && negb (Py.truthy (string_of_list_ascii word))
          then lex fuel' (after_newline rest)
          else emit word (lex fuel' rest)
      end
  end.

Definition symbol_tokens (text : list ascii) : list string :=
  lex (S (length text)) text.

(** One more sample: a rule that writes. *)
Definition writing_machine : TuringMachine.t :=
  TuringMachine.tape_setter
    "ab" (TuringMachine.__init__ [mkRule "1" "a" "2" "x" "-3"]).

(** A literal of 4301 digits. *)
Definition long_literal : string :=
  Nat.iter 4301 (String "1"%char) EmptyString.

(* ------------------------------------------------------------------ *)
(** ** The tape *)

Section TapeFacts.

Lemma get_set_same (tp : Tape.t) (p : Z) (s : string) :
  Tape.get (Tape.set tp p s) p = s.
Proof. unfold Tape.get, Tape.set; simpl. by rewrite lookup_insert_eq. Qed.

Lemma get_set_other (tp : Tape.t) (p q : Z) (s : string) :
  p <> q -> Tape.get (Tape.set tp p s) q = Tape.get tp q.
Proof.
  intros Hne. unfold Tape.get, Tape.set; simpl.
  by rewrite lookup_insert_ne.
Qed.

Lemma get_set_scanned (tp : Tape.t) (p q : Z) :
  Tape.get (Tape.set tp p (Tape.get tp p)) q = Tape.get tp q.
Proof.
  destruct (decide (p = q)) as [->|Hne].
  - apply get_set_same.
  - by apply get_set_other.
Qed.

Lemma set_not_blank (tp : Tape.t) (p : Z) (s : string) :
  Tape.is_blank (Tape.set tp p s) = false.
Proof.
  unfold Tape.is_blank, Tape.set; simpl.
  apply bool_decide_eq_false. apply insert_non_empty.
Qed.

Lemma new_empty_blank : Tape.is_blank (Tape.new "") = true.
Proof. reflexivity. Qed.

(** The cells of a tape under construction: the characters of [value]
    from position [pos] on, over what was there. *)
Lemma fill_lookup (value : string) :
  forall (pos : Z) (m : gmap Z string) (p : Z),
    Tape.fill pos value m !! p
    = match (if decide (pos <= p)
             then String.get (Z.to_nat (p - pos)) value else None) with
      | Some c => Some (String c EmptyString)
      | None => m !! p
      end.
Proof.
  induction value as [|c rest IH]; intros pos m p; simpl.
  - by destruct (decide (pos <= p)).
  - rewrite IH. destruct (decide (pos + 1 <= p)) as [Hgt|Hle].
    + destruct (decide (pos <= p)); [|lia].
      replace (Z.to_nat (p - pos)) with (S (Z.to_nat (p - (pos + 1)))) by lia.
      destruct (String.get _ rest); [done|].
      apply lookup_insert_ne. lia.
    + destruct (decide (pos <= p)) as [Hge|Hlt].
      * assert (p = pos) as -> by lia.
        rewrite Z.sub_diag. simpl. apply lookup_insert_eq.
      * apply lookup_insert_ne. lia.
Qed.

(** A new tape holds the characters of its string from position 0 on,
    one per cell, and blanks everywhere else. *)
Lemma get_new (value : string) (p : Z) :
  Tape.get (Tape.new value) p
  = match (if decide (0 <= p) then String.get (Z.to_nat p) value else None)
    with
    | Some c => String c EmptyString
    | None => Tape.BLANK
    end.
Proof.
  unfold Tape.get, Tape.new; simpl. rewrite fill_lookup, Z.sub_0_r.
  destruct (if decide (0 <= p) then _ else _); [done|].
  by rewrite lookup_empty.
Qed.

(** Only the empty string gives a blank tape. *)
Lemma new_blank (value : string) :
  Tape.is_blank (Tape.new value) = true <-> value = "".
Proof.
  split; [|by intros ->].
  destruct value as [|c rest]; [done|]. intros Hb.
  apply bool_decide_eq_true in Hb. simpl in Hb.
  pose proof (fill_lookup (String c rest) 0 ∅ 0) as Hl.
  simpl in Hl. rewrite Hb, lookup_empty in Hl. discriminate Hl.
Qed.

End TapeFacts.

(* ------------------------------------------------------------------ *)
(** ** Rule lookup *)

Section FindRule.
Import TuringMachine.

Lemma rule_matches_covers (st sc : string) (r : Rule) :
  rule_matches st sc r = true <-> covers st sc r.
Proof.
  unfold rule_matches, covers.
  rewrite andb_true_iff, orb_true_iff, !String.eqb_eq. tauto.
Qed.

Lemma rule_matches_not_covers (st sc : string) (r : Rule) :
  rule_matches st sc r = false <-> ~ covers st sc r.
Proof.
  rewrite <- rule_matches_covers. destruct (rule_matches st sc r); split;
    intros; congruence.
Qed.

Lemma find_rule_in_found (rs : list Rule) (st sc : string) (r : Rule) :
  find_rule_in rs st sc = inl r <->
  exists before after,
    rs = (before ++ r :: after)%list
    /\ covers st sc r
    /\ Forall (fun r' => ~ covers st sc r') before.
Proof.
  induction rs as [|r0 rs IH]; simpl.
  - split; [discriminate|]. intros (before & after & Heq & _).
    destruct before; discriminate.
  - destruct (rule_matches st sc r0) eqn:Hm.
    + apply rule_matches_covers in Hm. split.
      * intros [= <-]. exists [], rs. auto.
      * intros (before & after & Heq & Hc & Hall).
        destruct before as [|b before]; simpl in Heq; injection Heq as <- Hrs.
        -- reflexivity.
        -- inversion Hall; subst. contradiction.
    + apply rule_matches_not_covers in Hm. rewrite IH. split.
      * intros (before & after & -> & Hc & Hall).
        exists (r0 :: before), after. auto.
      * intros (before & after & Heq & Hc & Hall).
        destruct before as [|b before]; simpl in Heq; injection Heq as <- Hrs.
        -- contradiction.
        -- inversion Hall; subst. eauto.
Qed.

Lemma find_rule_in_raises (rs : list Rule) (st sc : string) (e : exn) :
  find_rule_in rs st sc = inr e <->
  e = RuleNotFound st sc /\ Forall (fun r => ~ covers st sc r) rs.
Proof.
  induction rs as [|r0 rs IH]; simpl.
  - split.
    + intros [= <-]. auto.
    + intros [-> _]. reflexivity.
  - destruct (rule_matches st sc r0) eqn:Hm.
    + apply rule_matches_covers in Hm. split; [discriminate|].
      intros [_ Hall]. inversion Hall; subst. contradiction.
    + apply rule_matches_not_covers in Hm. rewrite IH. split.
      * intros [-> Hall]. auto.
      * intros [-> Hall]. inversion Hall; subst. auto.
Qed.

(** C3: [find_rule(state, scan)] returns the earliest rule of the table,
    in insertion order, that starts from [state] and whose symbol is
    [scan] or the wildcard; it raises [RuleNotFound(state, scan)] exactly
    when no rule of the table does. *)
Theorem find_rule_first_match (self : t) (st sc : string) :
  (forall r,
      find_rule self st sc = inl r <->
      exists before after,
        rules self = (before ++ r :: after)%list
        /\ covers st sc r
        /\ Forall (fun r' => ~ covers st sc r') before)
  /\ (forall e,
         find_rule self st sc = inr e <->
         e = RuleNotFound st sc
         /\ Forall (fun r => ~ covers st sc r) (rules self)).
Proof.
  split; intros; [apply find_rule_in_found | apply find_rule_in_raises].
Qed.

End FindRule.

(* ------------------------------------------------------------------ *)
(** ** One step *)

Section Step.
Import TuringMachine.

Lemma written_wildcard (r : Rule) (scan : string) :
  next_symbol r = WILDCARD -> written r scan = scan.
Proof. unfold written. intros ->. reflexivity. Qed.

Lemma written_symbol (r : Rule) (scan : string) :
  next_symbol r <> WILDCARD -> written r scan = next_symbol r.
Proof.
  unfold written. intros Hne.
  destruct (String.eqb_spec (next_symbol r) WILDCARD); [contradiction | done].
Qed.

(** A call of [step] that returns. *)
Lemma step_returns (self self' : t) :
  step self = (self', None) ->
  exists r d,
    Tape.is_blank (_tape self) = false
    /\ find_rule self (state self) (Tape.get (_tape self) (head self)) = inl r
    /\ Py.int (head_direction r) = Some d
    /\ self' =
       Make (rules self) (STATE_INIT self) (STATE_HALT self)
            (next_state r) (head self + d) (Some r)
            (Tape.set (_tape self) (head self)
                      (written r (Tape.get (_tape self) (head self))))
            (S (stepc self))
            (if d =? 0 then head_moves self else S (head_moves self))
            (path self ++ [next_state r]).
Proof.
  unfold step. destruct (Tape.is_blank (_tape self)) eqn:Hb; [discriminate|].
  cbn [set_stepc _tape head state].
  destruct (find_rule _ _ _) as [r|e] eqn:Hf; [|discriminate].
  destruct (Py.int (head_direction r)) as [d|] eqn:Hd; [|discriminate].
  intros [= <-]. exists r, d. repeat split; auto.
  destruct (d =? 0); reflexivity.
Qed.

(** A call of [step] that raises. *)
Lemma step_raises (self self' : t) (e : exn) :
  step self = (self', Some e) ->
  (Tape.is_blank (_tape self) = true /\ e = TapeBlank /\ self' = self)
  \/ (Tape.is_blank (_tape self) = false
      /\ e = RuleNotFound (state self) (Tape.get (_tape self) (head self))
      /\ self' = set_stepc (S (stepc self)) self)
  \/ (Tape.is_blank (_tape self) = false
      /\ exists r, e = ValueError (head_direction r)
                   /\ Py.int (head_direction r) = None).
Proof.
  unfold step. destruct (Tape.is_blank (_tape self)) eqn:Hb.
  { intros [= <- <-]. auto. }
  cbn [set_stepc _tape head state].
  destruct (find_rule _ _ _) as [r|e'] eqn:Hf.
  - destruct (Py.int (head_direction r)) as [d|] eqn:Hd; [discriminate|].
    intros [= <- <-]. right; right. eauto.
  - intros [= <- <-]. right; left. split; [done|]. split; [|done].
    apply find_rule_in_raises in Hf. tauto.
Qed.

(** C1, as the code has it: when [step] raises [TapeBlank] nothing at all
    has changed; when it raises [RuleNotFound] the step counter has been
    incremented by one, and the head, the current state, the path, the
    last rule, the count of head moves and the tape are as before the
    call. *)
Theorem step_failure_leaves (self self' : t) (e : exn) :
  step self = (self', Some e) ->
  (e = TapeBlank -> self' = self)
  /\ (forall st sc,
         e = RuleNotFound st sc ->
         stepc self' = S (stepc self)
         /\ head self' = head self
         /\ state self' = state self
         /\ path self' = path self
         /\ rule self' = rule self
         /\ head_moves self' = head_moves self
         /\ _tape self' = _tape self).
Proof.
  intros Hs. apply step_raises in Hs.
  destruct Hs as [(_ & -> & ->) | [(_ & -> & ->) | (_ & r & -> & _)]].
  - split; [done | discriminate].
  - split; [discriminate|]. intros st sc _. cbn. repeat split.
  - split; discriminate.
Qed.

(** C2, as the code has it: a step that returns sets the current state
    to the rule's target state, adds the integer value of the rule's
    direction to the head, whatever its magnitude, and counts one more
    head move exactly when that value is not zero. *)
Theorem step_moves_head (self self' : t) :
  step self = (self', None) ->
  exists r d,
    rule self' = Some r
    /\ find_rule self (state self) (Tape.get (_tape self) (head self)) = inl r
    /\ Py.int (head_direction r) = Some d
    /\ state self' = next_state r
    /\ head self' = head self + d
    /\ (d <> 0 -> head_moves self' = S (head_moves self))
    /\ (d = 0 -> head_moves self' = head_moves self).
Proof.
  intros Hs. apply step_returns in Hs as (r & d & _ & Hf & Hd & ->).
  exists r, d. cbn. repeat split; auto.
  - intros Hne. apply Z.eqb_neq in Hne. by rewrite Hne.
  - intros ->. reflexivity.
Qed.

(** C4: a step that returns, applying rule [r] over the scanned symbol
    [x], leaves [x] in the scanned cell when the rule's symbol to write
    is the wildcard and puts that symbol there otherwise; no other cell
    changes. *)
Theorem step_writes (self self' : t) (x : string) :
  step self = (self', None) ->
  x = Tape.get (_tape self) (head self) ->
  exists r,
    rule self' = Some r
    /\ find_rule self (state self) x = inl r
    /\ (next_symbol r = WILDCARD ->
        Tape.get (_tape self') (head self) = x)
    /\ (next_symbol r <> WILDCARD ->
        Tape.get (_tape self') (head self) = next_symbol r)
    /\ (forall p, p <> head self ->
                  Tape.get (_tape self') p = Tape.get (_tape self) p).
Proof.
  intros Hs ->. apply step_returns in Hs as (r & d & _ & Hf & _ & ->).
  exists r. cbn. repeat split; auto.
  - intros Hw. by rewrite get_set_same, written_wildcard.
  - intros Hw. by rewrite get_set_same, written_symbol.
  - intros p Hp. by rewrite get_set_other.
Qed.

End Step.

(* ------------------------------------------------------------------ *)
(** ** Assigning a tape, and the path *)

Section Reset.
Import TuringMachine.

(** C8: assigning a tape, whatever the string, puts a tape built from
    that string in place of the old one and resets the machine state: the
    current state is the initial label, the head is 0, both counters are
    0, the path is the initial label alone and there is no last rule.
    The rules and the two labels stay. *)
Theorem tape_setter_resets (self : t) (value : string) :
  let self' := tape_setter value self in
  _tape self' = Tape.new value
  /\ state self' = STATE_INIT self
  /\ head self' = 0
  /\ stepc self' = 0%nat
  /\ head_moves self' = 0%nat
  /\ path self' = [STATE_INIT self]
  /\ rule self' = None
  /\ rules self' = rules self
  /\ STATE_INIT self' = STATE_INIT self
  /\ STATE_HALT self' = STATE_HALT self.
Proof. cbn. repeat split. Qed.

Lemma step_keeps_labels (self self' : t) :
  step self = (self', None) ->
  STATE_INIT self' = STATE_INIT self /\ STATE_HALT self' = STATE_HALT self.
Proof.
  intros Hs. apply step_returns in Hs as (r & d & _ & _ & _ & ->). by cbn.
Qed.

Lemma step_path_invariant (init : string) (self self' : t) :
  path_invariant init self ->
  step self = (self', None) ->
  path_invariant init self'.
Proof.
  intros (Hlen & Hhd & Hlast) Hs.
  apply step_returns in Hs as (r & d & _ & _ & _ & ->).
  unfold path_invariant; cbn. split; [|split].
  - rewrite length_app; simpl. lia.
  - rewrite lookup_app_l; [done | lia].
  - apply last_snoc.
Qed.

Lemma steps_path_invariant (init : string) (n : nat) :
  forall self self',
    path_invariant init self ->
    steps n self = Some self' ->
    path_invariant init self' /\ stepc self' = (stepc self + n)%nat.
Proof.
  induction n as [|n IH]; intros self self' Hinv; simpl.
  - intros [= <-]. split; [done | lia].
  - destruct (step self) as [mid [e|]] eqn:Hs; [discriminate|].
    intros Hn. pose proof (step_path_invariant _ _ _ Hinv Hs) as Hmid.
    destruct (IH _ _ Hmid Hn) as [Hinv' Hc]. split; [done|].
    apply step_returns in Hs as (r & d & _ & _ & _ & ->). cbn in Hc. lia.
Qed.

(** C9: after a tape has been assigned and [n] calls of [step] have
    returned, the path has one entry more than the step counter (which is
    [n]), starts with the initial label and ends with the current
    state. *)
Theorem path_tracks_steps (self self' : t) (value : string) (n : nat) :
  steps n (tape_setter value self) = Some self' ->
  length (path self') = S (stepc self')
  /\ stepc self' = n
  /\ path self' !! 0%nat = Some (STATE_INIT self)
  /\ last (path self') = Some (state self').
Proof.
  intros Hn.
  assert (Hinv : path_invariant (STATE_INIT self) (tape_setter value self)).
  { unfold path_invariant; cbn. auto. }
  destruct (steps_path_invariant _ _ _ _ Hinv Hn) as [(H1 & H2 & H3) Hc].
  cbn in Hc. auto.
Qed.

End Reset.

(* ------------------------------------------------------------------ *)
(** ** Running to the halting label *)

Section Run.
Import TuringMachine.

Lemma steps_keep_halt (n : nat) :
  forall self self', steps n self = Some self' ->
                     STATE_HALT self' = STATE_HALT self.
Proof.
  induction n as [|n IH]; intros self self'; simpl.
  - by intros [= <-].
  - destruct (step self) as [mid [e|]] eqn:Hs; [discriminate|].
    intros Hn. rewrite (IH _ _ Hn). apply step_keeps_labels in Hs. tauto.
Qed.

Lemma run_halted (fuel : nat) (self : t) :
  state self = STATE_HALT self -> run fuel self = Returned self (_tape self).
Proof.
  intros Heq. destruct fuel; simpl; rewrite Heq, String.eqb_refl; done.
Qed.

(** [run] returns only from a machine in the halting state, reached by
    calls of [step] none of which started in that state. *)
Lemma run_returned (fuel : nat) :
  forall self self' tp,
    run fuel self = Returned self' tp ->
    state self' = STATE_HALT self
    /\ tp = _tape self'
    /\ exists n, (n <= fuel)%nat
                 /\ steps n self = Some self'
                 /\ not_before n (STATE_HALT self) self.
Proof.
  induction fuel as [|fuel IH]; intros self self' tp; simpl;
    destruct (String.eqb_spec (state self) (STATE_HALT self)) as [Heq|Hne];
    simpl; try discriminate.
  - intros [= <- <-]. repeat split; auto. exists 0%nat.
    repeat split; auto. intros k mid Hk. lia.
  - intros [= <- <-]. repeat split; auto. exists 0%nat.
    repeat split; [lia|]. intros k mid Hk. lia.
  - destruct (step self) as [mid [e|]] eqn:Hs; [discriminate|].
    intros Hr. apply IH in Hr as (Hst & -> & n & Hle & Hn & Hnb).
    destruct (step_keeps_labels _ _ Hs) as [_ Hh]. rewrite Hh in *.
    repeat split; auto. exists (S n). split; [lia|]. split.
    + simpl. by rewrite Hs.
    + intros [|k] m Hk; simpl.
      * by intros [= <-].
      * rewrite Hs. apply Hnb. lia.
Qed.

(** Conversely [run] returns as soon as the halting state is reached. *)
Lemma run_reaches (n : nat) :
  forall self self' fuel,
    steps n self = Some self' ->
    state self' = STATE_HALT self ->
    not_before n (STATE_HALT self) self ->
    (n <= fuel)%nat ->
    run fuel self = Returned self' (_tape self').
Proof.
  induction n as [|n IH]; intros self self' fuel; simpl.
  - intros [= <-] Heq _ _. by apply run_halted.
  - destruct (step self) as [mid [e|]] eqn:Hs; [discriminate|].
    intros Hn Heq Hnb Hle.
    destruct fuel as [|fuel]; [lia|]. simpl.
    assert (Hne : state self <> STATE_HALT self).
    { apply (Hnb 0%nat); [lia | reflexivity]. }
    destruct (String.eqb_spec (state self) (STATE_HALT self)); [done|].
    simpl. rewrite Hs.
    destruct (step_keeps_labels _ _ Hs) as [_ Hh].
    apply IH; rewrite ?Hh; auto; [|lia].
    intros k m Hk Hm. apply (Hnb (S k)); [lia|]. simpl. by rewrite Hs.
Qed.

(** C10: called on a machine already in the halting state, [run] returns
    the tape at once, before any iteration of its loop: no step is made,
    and the machine and its tape are the ones it was called on. *)
Theorem run_when_halted (self : t) :
  state self = STATE_HALT self ->
  forall fuel, run fuel self = Returned self (_tape self).
Proof. intros Heq fuel. by apply run_halted. Qed.

(** C7: for a parsed rule file whose configuration has entries [init]
    and [halt], the machine loaded from it and given a tape starts in the
    [init] label and has the [halt] label as its halting label; [run]
    returns exactly when a sequence of steps first reaches that label,
    with the tape of the machine reached. *)
Theorem run_halts_on_configured_label
    (parsed : list Rule * gmap string string) (a z tape : string) :
  parsed.2 !! "init" = Some a ->
  parsed.2 !! "halt" = Some z ->
  let start := tape_setter tape (main_load parsed) in
  STATE_HALT start = z
  /\ state start = a
  /\ (forall fuel self' tp,
         main_run fuel (main_load parsed) tape = Returned self' tp ->
         state self' = z
         /\ tp = _tape self'
         /\ exists n, (n <= fuel)%nat
                      /\ steps n start = Some self'
                      /\ not_before n z start)
  /\ (forall n self' fuel,
         steps n start = Some self' ->
         state self' = z ->
         not_before n z start ->
         (n <= fuel)%nat ->
         main_run fuel (main_load parsed) tape = Returned self' (_tape self')).
Proof.
  intros Hi Hh start.
  assert (Hz : STATE_HALT start = z).
  { subst start. unfold main_load. rewrite Hi, Hh. reflexivity. }
  assert (Ha : state start = a).
  { subst start. unfold main_load. rewrite Hi, Hh. reflexivity. }
  split; [done|]. split; [done|]. split.
  - intros fuel self' tp Hr. unfold main_run in Hr. fold start in Hr.
    apply run_returned in Hr. by rewrite Hz in Hr.
  - intros n self' fuel Hn Hs Hnb Hle. unfold main_run. fold start.
    apply (run_reaches n); rewrite ?Hz; auto.
Qed.

End Run.

(* ------------------------------------------------------------------ *)
(** ** The reader *)

Section Reader.
Import ReadRules.

Lemma feed_app (text1 text2 : list ascii) :
  forall v, feed v (text1 ++ text2) = feed (feed v text1) text2.
Proof. induction text1 as [|c text1 IH]; intros v; simpl; auto. Qed.

(** Storing the buffered symbol appends it to the tokens stored and
    counts it. *)
Lemma reader_std_invariant (char : ascii) (eof : bool) (v : vars) :
  reader_invariant v -> reader_invariant (reader_std char eof v).
Proof.
  intros [Hc Hl]. unfold reader_std.
  destruct (symbol_char char && negb eof); [done|].
  destruct (Ascii.eqb char ":" && negb eof); [done|].
  destruct (Py.truthy (sym_buf v)).
  - unfold reader_invariant, stored_tokens in *.
    destruct v as [rs cf tb sb cb n st]; simpl in *.
    destruct tb as [|a [|b [|c [|d [|e tb]]]]]; simpl in *;
      rewrite ?length_app in *; simpl in *; try lia.
    rewrite map_app, concat_app, length_app in *; simpl in *. lia.
  - destruct (Ascii.eqb char "#"); done.
Qed.

Lemma state_reader_invariant (char : ascii) (eof : bool) (v : vars) :
  reader_invariant v -> reader_invariant (state_reader char eof v).
Proof.
  intros Hv. unfold state_reader.
  set (v1 := match state v with Std => reader_std char eof v | _ => v end).
  assert (Hv1 : reader_invariant v1).
  { subst v1. destruct (state v); auto using reader_std_invariant. }
  clearbody v1. destruct (state v1); auto.
  - unfold reader_cfg.
    destruct (value_char char && negb eof); [exact Hv1|].
    destruct (Py.truthy _); exact Hv1.
  - unfold reader_cmt. destruct (Ascii.eqb char newline); exact Hv1.
Qed.

Lemma feed_invariant (text : list ascii) :
  forall v, reader_invariant v -> reader_invariant (feed v text).
Proof.
  induction text as [|c text IH]; intros v Hv; simpl; auto.
  apply IH. by apply state_reader_invariant.
Qed.

Lemma end_of_file_invariant (text : list ascii) :
  reader_invariant (end_of_file text).
Proof.
  apply state_reader_invariant, feed_invariant. split; simpl; [done | lia].
Qed.

(** A comment that starts while no symbol is being read leaves every
    variable of the reader as it was. *)
Lemma feed_comment_body (body : list ascii) :
  forall v, state v = Cmt -> newline ∉ body -> feed v body = v.
Proof.
  induction body as [|c body IH]; intros v Hst Hnl; simpl; auto.
  assert (Hc : state_reader c false v = v).
  { unfold state_reader. rewrite Hst. cbn iota. rewrite Hst.
    unfold reader_cmt.
    destruct (Ascii.eqb_spec c newline) as [->|Hne]; [|done].
    exfalso. apply Hnl. by left. }
  rewrite Hc. apply IH; [done|]. intros Hin. apply Hnl. by right.
Qed.

(** C6, as the code has it: a [#] met in symbol mode while no symbol is
    being read (the symbol buffer is empty) begins a comment; it and the
    characters up to and including the next newline leave no trace, and
    reading goes on in symbol mode; so a file reads the same with the
    comment taken out. *)
Theorem comment_discarded (v : vars) (body : list ascii) :
  state v = Std ->
  sym_buf v = "" ->
  newline ∉ body ->
  feed v ("#"%char :: body ++ [newline]) = v
  /\ (forall before after,
         feed init before = v ->
         after <> [] ->
         _read_rules (before ++ "#"%char :: body ++ newline :: after)
         = _read_rules (before ++ after)).
Proof.
  intros Hst Hbuf Hnl.
  assert (Hfeed : feed v ("#"%char :: body ++ [newline]) = v).
  { simpl. rewrite feed_app.
    set (v1 := state_reader "#" false v).
    assert (Hv1 : v1 = Make (rules v) (cfg v) (tup_buf v) (sym_buf v)
                            (cfg_buf v) (symc v) Cmt).
    { subst v1. unfold state_reader. rewrite Hst. unfold reader_std.
      rewrite Hbuf. reflexivity. }
    rewrite (feed_comment_body body v1); [|by rewrite Hv1|done].
    rewrite Hv1. destruct v; simpl in *. by subst. }
  split; [exact Hfeed|]. intros before after Hb Hne.
  unfold _read_rules.
  replace (before ++ "#"%char :: body ++ newline :: after)%list
    with ((before ++ "#"%char :: body ++ [newline]) ++ after)%list
    by (rewrite <- !app_assoc; simpl; by rewrite <- app_assoc).
  rewrite !last_app.
  destruct (last after) as [c|] eqn:Hlast;
    [|apply last_None in Hlast; contradiction].
  rewrite !feed_app, Hb, Hfeed. reflexivity.
Qed.

End Reader.

(* ------------------------------------------------------------------ *)
(** ** The samples, run *)

Section Samples.
Import TuringMachine.

Example increment_runs :
  observe (run 4 increment_machine)
  = Some ("0", 3, 4%nat, 3%nat, ["1"; "1"; "1"; "1"; "0"],
          ["_"; "1"; "1"; "1"; "1"; "_"]).
Proof. vm_compute. reflexivity. Qed.

Example immediate_halt :
  observe (run 1 (tape_setter "abc" (__init__ [mkRule "1" "*" "0" "*" "0"])))
  = Some ("0", 0, 1%nat, 0%nat, ["1"; "0"], ["_"; "a"; "b"; "c"; "_"; "_"]).
Proof. vm_compute. reflexivity. Qed.

Example int_literals :
  map Py.int ["1"; "-1"; "+1"; " 2 "; "007"; "1_0"; "1__0"; "_1"; "-"; ""; "R"]
  = [Some 1; Some (-1); Some 1; Some 2; Some 7; Some 10; None; None; None;
     None; None].
Proof. vm_compute. reflexivity. Qed.

Example int_refuses :
  map Py.int [String "028" "1"; String "1" (String "029" ""); long_literal]
  = [None; None; None]
  /\ map Py.int [String "160" "1"; String "133" "-2"; String "009" "3"]
     = [Some 1; Some (-2); Some 3].
Proof. vm_compute. split; reflexivity. Qed.

Example first_match_wins :
  find_rule (__init__ [mkRule "S" "0" "A" "x" "1"; mkRule "S" "*" "B" "y" "1"])
            "S" "0"
  = inl (mkRule "S" "0" "A" "x" "1").
Proof. vm_compute. reflexivity. Qed.

Example blank_tape_raises :
  step (tape_setter "" (__init__ increment_rules))
  = (tape_setter "" (__init__ increment_rules), Some TapeBlank).
Proof. vm_compute. reflexivity. Qed.

Example seven_symbols :
  ReadRules.read_file "a b c d e f g" = inr (IncorrectSymbolCount 7).
Proof. vm_compute. reflexivity. Qed.

Example empty_file :
  ReadRules.read_file "" = inr (NameError "char").
Proof. vm_compute. reflexivity. Qed.

Example relabelled_file_parsed :
  ReadRules._read_rules relabelled_file = inl relabelled_parsed.
Proof. vm_compute. reflexivity. Qed.

Example relabelled_run_passes_default_halt :
  observe (main_run 2 (main_load relabelled_parsed) "ab")
  = Some ("Z", 1, 2%nat, 1%nat, ["A"; "0"; "Z"],
          ["_"; "a"; "b"; "_"; "_"; "_"]).
Proof. vm_compute. reflexivity. Qed.

End Samples.

(* ------------------------------------------------------------------ *)
(** ** The theorems at the samples *)

Section Instances.
Import TuringMachine.

(** Without a rule for the scanned symbol, [step] raises [RuleNotFound]
    and the step counter is the only thing that moved. *)
Lemma step_failure_leaves_witness :
  step ruleless_machine
  = (set_stepc 1 ruleless_machine, Some (RuleNotFound "1" "a"))
  /\ stepc (set_stepc 1 ruleless_machine) = S (stepc ruleless_machine)
  /\ head (set_stepc 1 ruleless_machine) = head ruleless_machine
  /\ state (set_stepc 1 ruleless_machine) = state ruleless_machine
  /\ path (set_stepc 1 ruleless_machine) = path ruleless_machine
  /\ rule (set_stepc 1 ruleless_machine) = rule ruleless_machine
  /\ head_moves (set_stepc 1 ruleless_machine) = head_moves ruleless_machine
  /\ _tape (set_stepc 1 ruleless_machine) = _tape ruleless_machine.
Proof.
  assert (Hs : step ruleless_machine
               = (set_stepc 1 ruleless_machine, Some (RuleNotFound "1" "a"))).
  { vm_compute. reflexivity. }
  split; [exact Hs|].
  exact (proj2 (step_failure_leaves _ _ _ Hs) "1" "a" eq_refl).
Defined.

(** C1 as stated fails: the step counter has changed when [step] raises
    [RuleNotFound]. *)
Lemma step_rule_not_found_counts :
  step ruleless_machine
  = (set_stepc 1 ruleless_machine, Some (RuleNotFound "1" "a"))
  /\ stepc ruleless_machine = 0%nat
  /\ stepc (set_stepc 1 ruleless_machine) = 1%nat
  /\ ~ (forall self self' e,
           step self = (self', Some e) ->
           engine_failure e ->
           same_machine_state self' self).
Proof.
  assert (Hs : step ruleless_machine
               = (set_stepc 1 ruleless_machine, Some (RuleNotFound "1" "a"))).
  { vm_compute. reflexivity. }
  repeat split; auto.
  intros Hall. destruct (Hall _ _ _ Hs) as [Hc _].
  - right. eauto.
  - discriminate Hc.
Qed.

(** A rule of direction 2 moves the head by two cells. *)
Lemma step_moves_head_witness :
  step leaping_machine = ((step leaping_machine).1, None)
  /\ exists r d,
      rule (step leaping_machine).1 = Some r
      /\ find_rule leaping_machine (state leaping_machine)
                   (Tape.get (_tape leaping_machine) (head leaping_machine))
         = inl r
      /\ Py.int (head_direction r) = Some d
      /\ state (step leaping_machine).1 = next_state r
      /\ head (step leaping_machine).1 = head leaping_machine + d
      /\ (d <> 0 ->
          head_moves (step leaping_machine).1
          = S (head_moves leaping_machine))
      /\ (d = 0 ->
          head_moves (step leaping_machine).1 = head_moves leaping_machine).
Proof.
  assert (Hs : step leaping_machine = ((step leaping_machine).1, None)).
  { vm_compute. reflexivity. }
  split; [exact Hs|]. exact (step_moves_head _ _ Hs).
Defined.

(** C2 as stated fails: the head moves by the value of the direction, not
    by its sign. *)
Lemma step_moves_by_value_not_sign :
  step leaping_machine = ((step leaping_machine).1, None)
  /\ rule (step leaping_machine).1 = Some (mkRule "1" "*" "0" "*" "2")
  /\ Py.int "2" = Some 2
  /\ head leaping_machine = 0
  /\ head (step leaping_machine).1 = 2
  /\ ~ (forall self self',
           step self = (self', None) ->
           exists r d,
             rule self' = Some r
             /\ Py.int (head_direction r) = Some d
             /\ head self' = head self + Z.sgn d).
Proof.
  assert (Hs : step leaping_machine = ((step leaping_machine).1, None)).
  { vm_compute. reflexivity. }
  split; [exact Hs|].
  split; [vm_compute; reflexivity|].
  split; [vm_compute; reflexivity|].
  split; [vm_compute; reflexivity|].
  split; [vm_compute; reflexivity|].
  intros Hall. destruct (Hall _ _ Hs) as (r & d & Hr & Hd & Hh).
  vm_compute in Hr. injection Hr as <-.
  vm_compute in Hd. injection Hd as <-.
  vm_compute in Hh. discriminate Hh.
Qed.

(** A rule that writes ["x"] over the scanned ["a"] and leaves the
    next cell alone; and the wildcard as the symbol to write, which
    leaves the scanned ["a"]. *)
Lemma step_writes_witness :
  step writing_machine = ((step writing_machine).1, None)
  /\ "a" = Tape.get (_tape writing_machine) (head writing_machine)
  /\ rule (step writing_machine).1 = Some (mkRule "1" "a" "2" "x" "-3")
  /\ Tape.get (_tape (step writing_machine).1) (head writing_machine) = "x"
  /\ Tape.get (_tape (step writing_machine).1) 1 = "b"
  /\ step leaping_machine = ((step leaping_machine).1, None)
  /\ "a" = Tape.get (_tape leaping_machine) (head leaping_machine)
  /\ rule (step leaping_machine).1 = Some (mkRule "1" "*" "0" "*" "2")
  /\ Tape.get (_tape (step leaping_machine).1) (head leaping_machine) = "a".
Proof.
  assert (Hs : step writing_machine = ((step writing_machine).1, None)).
  { vm_compute. reflexivity. }
  assert (Hx : "a" = Tape.get (_tape writing_machine) (head writing_machine)).
  { vm_compute. reflexivity. }
  assert (Hs' : step leaping_machine = ((step leaping_machine).1, None)).
  { vm_compute. reflexivity. }
  assert (Hx' : "a" = Tape.get (_tape leaping_machine) (head leaping_machine)).
  { vm_compute. reflexivity. }
  destruct (step_writes _ _ "a" Hs Hx) as (r & Hr & _ & _ & Hsym & Hother).
  destruct (step_writes _ _ "a" Hs' Hx') as (r' & Hr' & _ & Hwild & _ & _).
  assert (Hrule : r = mkRule "1" "a" "2" "x" "-3").
  { vm_compute in Hr. by injection Hr as <-. }
  assert (Hrule' : r' = mkRule "1" "*" "0" "*" "2").
  { vm_compute in Hr'. by injection Hr' as <-. }
  subst r r'.
  split; [exact Hs|]. split; [exact Hx|]. split; [exact Hr|].
  split; [apply Hsym; discriminate|].
  split; [rewrite (Hother 1); [vm_compute; reflexivity | discriminate]|].
  split; [exact Hs'|]. split; [exact Hx'|]. split; [exact Hr'|].
  apply Hwild. reflexivity.
Defined.

(** Four steps of the increment machine. *)
Lemma path_tracks_steps_witness :
  steps 4 (tape_setter "111" (__init__ increment_rules))
  = Some (after 4 increment_machine)
  /\ length (path (after 4 increment_machine))
     = S (stepc (after 4 increment_machine))
  /\ stepc (after 4 increment_machine) = 4%nat
  /\ path (after 4 increment_machine) !! 0%nat
     = Some (STATE_INIT (__init__ increment_rules))
  /\ last (path (after 4 increment_machine))
     = Some (state (after 4 increment_machine)).
Proof.
  assert (Hs : steps 4 (tape_setter "111" (__init__ increment_rules))
               = Some (after 4 increment_machine)).
  { vm_compute. reflexivity. }
  split; [exact Hs|].
  exact (path_tracks_steps _ _ _ _ Hs).
Defined.

(** A machine whose initial label is its halting label. *)
Lemma run_when_halted_witness :
  state halted_machine = STATE_HALT halted_machine
  /\ run 3 halted_machine = Returned halted_machine (_tape halted_machine).
Proof.
  assert (Hh : state halted_machine = STATE_HALT halted_machine).
  { vm_compute. reflexivity. }
  split; [exact Hh|]. exact (run_when_halted _ Hh 3%nat).
Defined.

(** The relabelled file: [run] goes through the state ["0"] and returns
    in ["Z"]. *)
Lemma run_halts_on_configured_label_witness :
  relabelled_parsed.2 !! "init" = Some "A"
  /\ relabelled_parsed.2 !! "halt" = Some "Z"
  /\ steps 1 relabelled_machine = Some (after 1 relabelled_machine)
  /\ state (after 1 relabelled_machine) = "0"
  /\ steps 2 relabelled_machine = Some (after 2 relabelled_machine)
  /\ state (after 2 relabelled_machine) = "Z"
  /\ main_run 5 (main_load relabelled_parsed) "ab"
     = Returned (after 2 relabelled_machine)
                (_tape (after 2 relabelled_machine)).
Proof.
  assert (Hi : relabelled_parsed.2 !! "init" = Some "A").
  { vm_compute. reflexivity. }
  assert (Hh : relabelled_parsed.2 !! "halt" = Some "Z").
  { vm_compute. reflexivity. }
  split; [exact Hi|]. split; [exact Hh|].
  assert (H2 : steps 2 relabelled_machine = Some (after 2 relabelled_machine)).
  { vm_compute. reflexivity. }
  assert (Hz : state (after 2 relabelled_machine) = "Z").
  { vm_compute. reflexivity. }
  split; [vm_compute; reflexivity|]. split; [vm_compute; reflexivity|].
  split; [exact H2|]. split; [exact Hz|].
  destruct (run_halts_on_configured_label relabelled_parsed "A" "Z" "ab" Hi Hh)
    as (_ & _ & _ & Hrun).
  apply (Hrun 2%nat); [exact H2 | exact Hz | |].
  - intros k mid Hk Hm.
    destruct k as [|[|k]]; [| |lia]; vm_compute in Hm;
      injection Hm as <-; discriminate.
  - lia.
Defined.

End Instances.

Section ReaderInstances.
Import ReadRules.

Lemma comment_body_no_newline : newline ∉ comment_body.
Proof.
  intros Hin. apply list_elem_of_In in Hin. vm_compute in Hin.
  repeat (destruct Hin as [Hin|Hin]; [discriminate Hin|]). exact Hin.
Defined.

(** A comment between the third and the fourth symbol of a rule. *)
Lemma comment_discarded_witness :
  state (feed init before_comment) = Std
  /\ sym_buf (feed init before_comment) = ""
  /\ (newline ∉ comment_body)
  /\ feed (feed init before_comment) ("#"%char :: comment_body ++ [newline])
     = feed init before_comment
  /\ _read_rules
       (before_comment ++ "#"%char :: comment_body ++ newline :: after_comment)
     = _read_rules (before_comment ++ after_comment).
Proof.
  assert (Hst : state (feed init before_comment) = Std).
  { vm_compute. reflexivity. }
  assert (Hbuf : sym_buf (feed init before_comment) = "").
  { vm_compute. reflexivity. }
  split; [exact Hst|]. split; [exact Hbuf|].
  split; [exact comment_body_no_newline|].
  destruct (comment_discarded _ comment_body Hst Hbuf comment_body_no_newline)
    as [Hfeed Hfile].
  split; [exact Hfeed|].
  apply Hfile; [reflexivity | discriminate].
Defined.

(** C6 as stated fails: a [#] that follows a symbol directly only ends
    that symbol, and what comes after it is read as symbols. *)
Lemma hash_after_symbol_ends_symbol :
  state (feed init ["a"%char]) = Std
  /\ sym_buf (feed init ["a"%char]) = "a"
  /\ stored_tokens (feed init ["a"%char]) = []
  /\ stored_tokens (feed (feed init ["a"%char]) ["#"%char; "b"%char; newline])
     = ["a"; "b"]
  /\ _read_rules hash_after_symbol_file
     = inl ([mkRule "a" "b" "c" "d" "e"], ∅)
  /\ ~ (forall v body,
           state v = Std ->
           newline ∉ body ->
           forall tok,
             tok ∈ stored_tokens (feed v ("#"%char :: body ++ [newline])) ->
             tok ∈ stored_tokens v \/ tok = sym_buf v).
Proof.
  split; [vm_compute; reflexivity|].
  split; [vm_compute; reflexivity|].
  split; [vm_compute; reflexivity|].
  split; [vm_compute; reflexivity|].
  split; [vm_compute; reflexivity|].
  intros Hall.
  destruct (Hall (feed init ["a"%char]) ["b"%char] eq_refl) with (tok := "b")
    as [Hin|Heq].
  - intros Hin. apply list_elem_of_In in Hin. vm_compute in Hin.
    destruct Hin as [Hin|[]]. discriminate Hin.
  - apply list_elem_of_In. vm_compute. right. left. reflexivity.
  - apply list_elem_of_In in Hin. vm_compute in Hin. exact Hin.
  - vm_compute in Heq. discriminate Heq.
Qed.

End ReaderInstances.

(* ------------------------------------------------------------------ *)
(** ** More on the engine *)

Section Engine.
Import TuringMachine.

(** [step], case by case. *)
Lemma step_unfold (self : t) :
  step self =
  if Tape.is_blank (_tape self) then (self, Some TapeBlank)
  else
    let scan := Tape.get (_tape self) (head self) in
    match find_rule self (state self) scan with
    | inr e => (set_stepc (S (stepc self)) self, Some e)
    | inl r =>
        match Py.int (head_direction r) with
        | None =>
            (Make (rules self) (STATE_INIT self) (STATE_HALT self)
                  (state self) (head self) (Some r)
                  (Tape.set (_tape self) (head self) (written r scan))
                  (S (stepc self)) (head_moves self) (path self),
             Some (ValueError (head_direction r)))
        | Some d =>
            (Make (rules self) (STATE_INIT self) (STATE_HALT self)
                  (next_state r) (head self + d) (Some r)
                  (Tape.set (_tape self) (head self) (written r scan))
                  (S (stepc self))
                  (if d =? 0 then head_moves self else S (head_moves self))
                  (path self ++ [next_state r]),
             None)
        end
    end.
Proof.
  unfold step. destruct (Tape.is_blank (_tape self)); [done|].
  cbn [set_stepc _tape head state]. cbn zeta.
  change (find_rule (set_stepc (S (stepc self)) self) (state self)
                    (Tape.get (_tape self) (head self)))
    with (find_rule self (state self) (Tape.get (_tape self) (head self))).
  destruct (find_rule self _ _) as [r|e]; [|done].
  destruct (Py.int (head_direction r)) as [d|]; [|done].
  destruct (d =? 0); reflexivity.
Qed.

(** X1: when the tape is not blank and the direction of the rule found
    is not an integer literal, [step] raises [ValueError] half way: the
    step counter has been incremented, the rule recorded and the tape
    written, while the state, the head, the count of head moves and the
    path are as before.  [step] raises [ValueError] in no other way. *)
Theorem step_value_error (self : t) :
  (forall r,
      Tape.is_blank (_tape self) = false ->
      find_rule self (state self) (Tape.get (_tape self) (head self)) = inl r ->
      Py.int (head_direction r) = None ->
      step self
      = (Make (rules self) (STATE_INIT self) (STATE_HALT self)
              (state self) (head self) (Some r)
              (Tape.set (_tape self) (head self)
                        (written r (Tape.get (_tape self) (head self))))
              (S (stepc self)) (head_moves self) (path self),
         Some (ValueError (head_direction r))))
  /\ (forall self' literal,
         step self = (self', Some (ValueError literal)) ->
         exists r,
           Tape.is_blank (_tape self) = false
           /\ find_rule self (state self) (Tape.get (_tape self) (head self))
              = inl r
           /\ literal = head_direction r
           /\ Py.int literal = None
           /\ stepc self' = S (stepc self)
           /\ rule self' = Some r
           /\ _tape self'
              = Tape.set (_tape self) (head self)
                         (written r (Tape.get (_tape self) (head self)))
           /\ state self' = state self
           /\ head self' = head self
           /\ head_moves self' = head_moves self
           /\ path self' = path self).
Proof.
  split.
  - intros r Hb Hf Hd. rewrite step_unfold, Hb. cbn zeta. by rewrite Hf, Hd.
  - intros self' literal. rewrite step_unfold.
    destruct (Tape.is_blank (_tape self)); [discriminate|].
    cbn zeta. destruct (find_rule self _ _) as [r|e] eqn:Hf.
    + destruct (Py.int (head_direction r)) as [d|] eqn:Hd; [discriminate|].
      intros [= <- <-]. exists r. cbn. repeat split; auto.
    + apply find_rule_in_raises in Hf as [-> _]. discriminate.
Qed.

(** X2: on a tape that is not blank, [step] raises [RuleNotFound] exactly
    when no rule of the table covers the current state and the scanned
    symbol, and the exception names that state and that symbol. *)
Theorem step_rule_not_found (self : t) :
  Tape.is_blank (_tape self) = false ->
  (Forall (fun r => ~ covers (state self)
                      (Tape.get (_tape self) (head self)) r) (rules self)
   <-> exists self' st sc, step self = (self', Some (RuleNotFound st sc)))
  /\ (forall self' st sc,
         step self = (self', Some (RuleNotFound st sc)) ->
         st = state self /\ sc = Tape.get (_tape self) (head self)).
Proof.
  intros Hb. rewrite step_unfold, Hb. cbn zeta.
  destruct (find_rule self _ _) as [r|e] eqn:Hf.
  - assert (Hnone : ~ Forall (fun r => ~ covers (state self)
                        (Tape.get (_tape self) (head self)) r) (rules self)).
    { intros Hall. apply find_rule_in_found in Hf
        as (before & after & Heq & Hc & _).
      rewrite Heq in Hall. apply Forall_app in Hall as [_ Hall].
      inversion Hall; subst. contradiction. }
    destruct (Py.int (head_direction r)); split;
      try (split; [intros H; contradiction
                  | intros (m & st & sc & H); discriminate H]);
      intros m st sc H; discriminate H.
  - apply find_rule_in_raises in Hf as [-> Hall]. split.
    + split; [eauto | auto].
    + intros m st sc [= _ <- <-]. auto.
Qed.

(** X3: whatever its outcome, [step] leaves the rule table and the two
    labels alone. *)
Theorem step_keeps_configuration (self : t) :
  rules (step self).1 = rules self
  /\ STATE_INIT (step self).1 = STATE_INIT self
  /\ STATE_HALT (step self).1 = STATE_HALT self.
Proof.
  rewrite step_unfold. destruct (Tape.is_blank (_tape self)); [done|].
  cbn zeta. destruct (find_rule self _ _) as [r|e]; [|done].
  destruct (Py.int (head_direction r)); done.
Qed.

(** X4: on a machine whose tape was assigned from the empty string and
    whose initial label is not its halting label, [run] raises
    [TapeBlank] at its first step and leaves the machine as assigned. *)
Theorem run_blank_tape (self : t) (fuel : nat) :
  STATE_INIT self <> STATE_HALT self ->
  run (S fuel) (tape_setter "" self)
  = Raised (tape_setter "" self) TapeBlank.
Proof.
  intros Hne. cbn [run]. cbn [tape_setter reset state STATE_HALT set_path
    set_head_moves set_stepc set_rule set_head set_state set__tape
    STATE_INIT].
  destruct (String.eqb_spec (STATE_INIT self) (STATE_HALT self)); [done|].
  reflexivity.
Qed.

Lemma steps_last (n : nat) :
  forall self self',
    steps (S n) self = Some self' ->
    exists mid, steps n self = Some mid /\ step mid = (self', None).
Proof.
  induction n as [|n IH]; intros self self' Hs.
  - simpl in Hs. destruct (step self) as [m [e|]] eqn:Hst; [discriminate|].
    injection Hs as <-. exists self. auto.
  - change (steps (S (S n)) self)
      with (match step self with
            | (m, None) => steps (S n) m
            | (_, Some _) => None
            end) in Hs.
    destruct (step self) as [m [e|]] eqn:Hst; [discriminate|].
    apply IH in Hs as (mid & Hmid & Hlast). exists mid. split; [|done].
    simpl. by rewrite Hst.
Qed.

(** X5: once a step has returned the tape is not blank, so no later step
    raises [TapeBlank]. *)
Theorem tape_not_blank_after_step (n : nat) (self self' : t) :
  steps (S n) self = Some self' ->
  Tape.is_blank (_tape self') = false
  /\ (step self').2 <> Some TapeBlank.
Proof.
  intros Hs. apply steps_last in Hs as (mid & _ & Hl).
  apply step_returns in Hl as (r & d & _ & _ & _ & ->).
  assert (Hb : Tape.is_blank
                 (Tape.set (_tape mid) (head mid)
                    (written r (Tape.get (_tape mid) (head mid)))) = false)
    by apply set_not_blank.
  split; [exact Hb|].
  rewrite step_unfold. cbn [_tape]. rewrite Hb. cbn zeta.
  destruct (find_rule _ _ _) as [r'|e] eqn:Hf.
  - destruct (Py.int (head_direction r')); discriminate.
  - apply find_rule_in_raises in Hf as [-> _]. discriminate.
Qed.

(** X6: over [n] steps that return, the step counter grows by [n] and the
    count of head moves by at most [n]; neither ever goes down. *)
Theorem counters_grow (n : nat) :
  forall self self',
    steps n self = Some self' ->
    stepc self' = (stepc self + n)%nat
    /\ (head_moves self <= head_moves self')%nat
    /\ (head_moves self' <= head_moves self + n)%nat.
Proof.
  induction n as [|n IH]; intros self self'; simpl.
  - intros [= <-]. lia.
  - destruct (step self) as [mid [e|]] eqn:Hs; [discriminate|].
    intros Hn. apply IH in Hn as (Hc & Hlo & Hhi).
    apply step_returns in Hs as (r & d & _ & _ & _ & ->).
    cbn in *. destruct (d =? 0); lia.
Qed.

(** X7: steps only ever append to the path: after [n] steps that return,
    the path is the old one followed by [n] more states, the last of
    which is the current state. *)
Theorem path_extends (n : nat) :
  forall self self',
    steps n self = Some self' ->
    exists visited,
      path self' = (path self ++ visited)%list
      /\ length visited = n
      /\ (n <> 0%nat -> last visited = Some (state self')).
Proof.
  induction n as [|n IH]; intros self self' Hs.
  - injection Hs as <-. exists []. rewrite app_nil_r. done.
  - apply steps_last in Hs as (mid & Hmid & Hl).
    apply IH in Hmid as (visited & Hp & Hlen & _).
    apply step_returns in Hl as (r & d & _ & _ & _ & ->).
    exists (visited ++ [next_state r])%list. cbn.
    split; [by rewrite Hp, <- app_assoc|].
    split; [rewrite length_app; simpl; lia|].
    intros _. apply last_snoc.
Qed.

End Engine.

(* ------------------------------------------------------------------ *)
(** ** More on running *)

Section Running.
Import TuringMachine.

Lemma step_configuration (self self' : t) (o : option exn) :
  step self = (self', o) ->
  rules self' = rules self
  /\ STATE_INIT self' = STATE_INIT self
  /\ STATE_HALT self' = STATE_HALT self.
Proof.
  rewrite step_unfold. destruct (Tape.is_blank (_tape self)).
  { by intros [= <- <-]. }
  cbn zeta. destruct (find_rule self _ _) as [r|e].
  - destruct (Py.int (head_direction r)); by intros [= <- <-].
  - by intros [= <- <-].
Qed.

Lemma steps_configuration (n : nat) :
  forall self self',
    steps n self = Some self' ->
    rules self' = rules self
    /\ STATE_INIT self' = STATE_INIT self
    /\ STATE_HALT self' = STATE_HALT self.
Proof.
  induction n as [|n IH]; intros self self'; simpl.
  - by intros [= <-].
  - destruct (step self) as [mid [e|]] eqn:Hs; [discriminate|].
    intros Hn. apply IH in Hn as (H1 & H2 & H3).
    apply step_configuration in Hs as (H4 & H5 & H6).
    rewrite H1, H2, H3. auto.
Qed.

Lemma setter_configuration (value : string) (a b : t) :
  rules a = rules b ->
  STATE_INIT a = STATE_INIT b ->
  STATE_HALT a = STATE_HALT b ->
  tape_setter value a = tape_setter value b.
Proof.
  intros H1 H2 H3. destruct a, b; simpl in *. subst. reflexivity.
Qed.

Lemma not_before_step (n : nat) (label : string) (self mid : t) :
  step self = (mid, None) ->
  not_before (S n) label self <->
  state self <> label /\ not_before n label mid.
Proof.
  intros Hs. unfold not_before. split.
  - intros Hnb. split.
    + apply (Hnb 0%nat); [lia | reflexivity].
    + intros k m Hk Hm. apply (Hnb (S k)); [lia|]. simpl. by rewrite Hs.
  - intros [Hne Hnb] [|k] m Hk; simpl.
    + by intros [= <-].
    + rewrite Hs. apply Hnb. lia.
Qed.

(** X8: [run] raises exactly what a call of [step] raises on a machine
    reached by steps from states other than the halting one, and it
    leaves the machine as that call left it. *)
Theorem run_raises (fuel : nat) :
  forall self self' e,
    run fuel self = Raised self' e <->
    exists n mid,
      (n < fuel)%nat
      /\ steps n self = Some mid
      /\ not_before (S n) (STATE_HALT self) self
      /\ step mid = (self', Some e).
Proof.
  induction fuel as [|fuel IH]; intros self self' e; simpl.
  - split.
    + destruct (negb _); discriminate.
    + intros (n & mid & Hlt & _). lia.
  - destruct (String.eqb_spec (state self) (STATE_HALT self)) as [Heq|Hne];
      simpl.
    + split; [discriminate|]. intros (n & mid & _ & _ & Hnb & _).
      exfalso. apply (Hnb 0%nat self); [lia | reflexivity | exact Heq].
    + destruct (step self) as [m1 [e1|]] eqn:Hs.
      * split.
        -- intros [= <- <-]. exists 0%nat, self. repeat split; auto; [lia|].
           intros k m Hk Hm. assert (k = 0%nat) as -> by lia.
           injection Hm as <-. exact Hne.
        -- intros (n & mid & _ & Hn & _ & Hmid). destruct n as [|n].
           ++ injection Hn as <-. rewrite Hs in Hmid. by injection Hmid as <- <-.
           ++ simpl in Hn. rewrite Hs in Hn. discriminate.
      * rewrite IH. destruct (step_keeps_labels _ _ Hs) as [_ Hh].
        rewrite Hh. split.
        -- intros (n & mid & Hlt & Hn & Hnb & Hmid).
           exists (S n), mid. split; [lia|]. split; [simpl; by rewrite Hs|].
           split; [|exact Hmid]. apply (not_before_step _ _ _ _ Hs). auto.
        -- intros (n & mid & Hlt & Hn & Hnb & Hmid). destruct n as [|n].
           ++ injection Hn as <-. rewrite Hs in Hmid. discriminate.
           ++ simpl in Hn. rewrite Hs in Hn.
              exists n, mid. split; [lia|]. split; [exact Hn|].
              split; [|exact Hmid].
              apply (not_before_step _ _ _ _ Hs) in Hnb. tauto.
Qed.

(** X9: when the first rule of the table keeps the machine in its
    current state whatever it scans, that state is not the halting one
    and the tape is not blank, [run] never returns and never raises: every
    iteration makes one more step. *)
Theorem run_never_returns (fuel : nat) :
  forall self r others,
    rules self = r :: others ->
    self_loop (state self) r ->
    state self <> STATE_HALT self ->
    Tape.is_blank (_tape self) = false ->
    exists self',
      run fuel self = Running self'
      /\ stepc self' = (stepc self + fuel)%nat
      /\ state self' = state self.
Proof.
  induction fuel as [|fuel IH]; intros self r others Hr Hloop Hne Hb; simpl;
    destruct (String.eqb_spec (state self) (STATE_HALT self)); try done; simpl.
  - exists self. split; [done|]. split; [lia | done].
  - destruct Hloop as (Hfrom & Hsym & Hto & d & Hd).
    assert (Hf : find_rule self (state self)
                   (Tape.get (_tape self) (head self)) = inl r).
    { unfold find_rule. rewrite Hr. simpl.
      assert (Hm : rule_matches (state self)
                     (Tape.get (_tape self) (head self)) r = true).
      { apply rule_matches_covers. split; auto. }
      by rewrite Hm. }
    rewrite step_unfold, Hb. cbn zeta. rewrite Hf, Hd.
    edestruct (IH (Make (rules self) (STATE_INIT self) (STATE_HALT self)
                        (next_state r) (head self + d) (Some r)
                        (Tape.set (_tape self) (head self)
                           (written r (Tape.get (_tape self) (head self))))
                        (S (stepc self))
                        (if d =? 0 then head_moves self
                         else S (head_moves self))
                        (path self ++ [next_state r])) r others)
      as (self' & Hrun & Hc & Hst).
    + exact Hr.
    + cbn. rewrite Hto. repeat split; eauto.
    + cbn. by rewrite Hto.
    + cbn. apply set_not_blank.
    + exists self'. split; [exact Hrun|]. cbn in Hc, Hst.
      split; [lia | by rewrite Hst].
Qed.

(** X10: in loop mode the outcome for the next input does not depend on
    the inputs before it: once a run has returned, assigning a tape to
    the machine it left and running gives what the freshly loaded machine
    gives. *)
Theorem next_input_starts_afresh
    (self self' : t) (tp : Tape.t) (tape1 tape2 : string)
    (fuel1 fuel2 : nat) :
  main_run fuel1 self tape1 = Returned self' tp ->
  tape_setter tape2 self' = tape_setter tape2 self
  /\ main_run fuel2 self' tape2 = main_run fuel2 self tape2.
Proof.
  unfold main_run. intros Hr.
  apply run_returned in Hr as (_ & _ & n & _ & Hn & _).
  apply steps_configuration in Hn as (H1 & H2 & H3). cbn in H1, H2, H3.
  assert (Heq : tape_setter tape2 self' = tape_setter tape2 self)
    by (by apply setter_configuration).
  split; [exact Heq | by rewrite Heq].
Qed.

End Running.

(* ------------------------------------------------------------------ *)
(** ** Stepping mode and loading *)

Section Driving.
Import TuringMachine.

(** X11: started on a machine that is not in its halting state and fed
    keys other than Ctrl+C, stepping mode ends as [run] does after as
    many iterations as there are keys: with the same machine returned,
    the same exception raised from the same machine, or the same machine
    still on its way. *)
Theorem stepping_mode_follows_run (keys : list ascii) :
  forall verbose self,
    Forall (fun x => Py.code x <> 3%N) keys ->
    state self <> STATE_HALT self ->
    same_ending (_stepping_mode keys verbose self) (run (length keys) self).
Proof.
  induction keys as [|x keys IH]; intros verbose self Hkeys Hne; simpl;
    destruct (String.eqb_spec (state self) (STATE_HALT self)); try done.
  simpl. inversion Hkeys as [|? ? Hx Hrest]; subst.
  apply N.eqb_neq in Hx. rewrite Hx.
  destruct (step self) as [mid [e|]] eqn:Hs; simpl; [done|].
  destruct (String.eqb_spec (state mid) (STATE_HALT mid)) as [Heq|Hne'].
  - simpl. by apply run_halted.
  - by apply IH.
Qed.

(** X12: stepping mode makes a step before it looks at the state.  On a
    machine already in its halting state, where [run] returns at once,
    the first key makes a step all the same, and what that step raises is
    raised. *)
Theorem stepping_mode_steps_first
    (x : ascii) (keys : list ascii) (verbose : bool) (self self' : t)
    (e : exn) (fuel : nat) :
  Py.code x <> 3%N ->
  state self = STATE_HALT self ->
  step self = (self', Some e) ->
  run fuel self = Returned self (_tape self)
  /\ _stepping_mode (x :: keys) verbose self
     = KeyRaised self' (if Ascii.eqb x "i" then negb verbose else verbose) e.
Proof.
  intros Hx Hh Hs. split; [by apply run_halted|].
  simpl. apply N.eqb_neq in Hx. by rewrite Hx, Hs.
Qed.

(** X13: loading takes the rules as parsed, takes each label from the
    configuration entry [init] or [halt] and keeps the default ["1"] or
    ["0"] when the entry is missing; no other entry has any effect. *)
Theorem main_load_labels (parsed : list Rule * gmap string string) :
  rules (main_load parsed) = parsed.1
  /\ STATE_INIT (main_load parsed) = default "1" (parsed.2 !! "init")
  /\ STATE_HALT (main_load parsed) = default "0" (parsed.2 !! "halt")
  /\ (forall key value,
         key <> "init" -> key <> "halt" ->
         main_load (parsed.1, <[key := value]> parsed.2) = main_load parsed).
Proof.
  unfold main_load.
  split; [by destruct (parsed.2 !! "init"), (parsed.2 !! "halt")|].
  split; [by destruct (parsed.2 !! "init"), (parsed.2 !! "halt")|].
  split; [by destruct (parsed.2 !! "init"), (parsed.2 !! "halt")|].
  intros key value Hi Hh. cbn [fst snd].
  by rewrite !lookup_insert_ne.
Qed.

End Driving.

(* ------------------------------------------------------------------ *)
(** ** More on the reader *)

Section Reading.
Import ReadRules.

Lemma append_char_app (s t : string) (c : ascii) :
  (Py.append_char s c) +:+ t = s +:+ String c t.
Proof.
  unfold Py.append_char. induction s as [|a s IH]; [reflexivity|].
  change (String a ((s +:+ String c "") +:+ t) = String a (s +:+ String c t)).
  by rewrite IH.
Qed.

Lemma append_empty_r (s : string) : s +:+ "" = s.
Proof.
  induction s as [|a s IH]; [reflexivity|].
  change (String a (s +:+ "") = String a s). by rewrite IH.
Qed.

Lemma store_symbol_shape (tok : string) (v : vars) :
  state (store_symbol tok v) = state v
  /\ sym_buf (store_symbol tok v) = ""
  /\ cfg (store_symbol tok v) = cfg v
  /\ cfg_buf (store_symbol tok v) = cfg_buf v
  /\ symc (store_symbol tok v) = S (symc v)
  /\ stored_tokens (store_symbol tok v) = (stored_tokens v ++ [tok])%list
  /\ exists more, rules (store_symbol tok v) = (rules v ++ more)%list.
Proof.
  unfold store_symbol, stored_tokens.
  destruct (tup_buf v) as [|a [|b [|c [|d [|e [|f l]]]]]]; simpl;
    repeat split; try (exists []; by rewrite app_nil_r);
    rewrite <- ?app_assoc; try done.
  - rewrite map_app, concat_app. simpl. by rewrite <- app_assoc.
  - eauto.
Qed.

(** The branch [elif sym_buf] of the first [if], as one function. *)
Lemma state_reader_stores (char : ascii) (eof : bool) (v : vars) :
  state v = Std ->
  Py.truthy (sym_buf v) = true ->
  eof = true \/ delimiterb char = true ->
  state_reader char eof v = store_symbol (sym_buf v) v.
Proof.
  intros Hst Hbuf Hend. unfold state_reader. rewrite Hst.
  assert (Hstd : reader_std char eof v = store_symbol (sym_buf v) v).
  { unfold reader_std, store_symbol.
    assert (H1 : symbol_char char && negb eof = false).
    { destruct Hend as [->|Hd]; [apply andb_false_r|].
      unfold delimiterb in Hd. apply andb_true_iff in Hd as [Hd _].
      apply negb_true_iff in Hd. by rewrite Hd. }
    assert (H2 : Ascii.eqb char ":" && negb eof = false).
    { destruct Hend as [->|Hd]; [apply andb_false_r|].
      unfold delimiterb in Hd. apply andb_true_iff in Hd as [_ Hd].
      apply negb_true_iff in Hd. by rewrite Hd. }
    by rewrite H1, H2, Hbuf. }
  rewrite Hstd. destruct (store_symbol_shape (sym_buf v) v) as [Hs _].
  by rewrite Hs, Hst.
Qed.

(** Characters of a symbol pile up in the symbol buffer. *)
Lemma feed_symbol_chars (tok : string) :
  forall v,
    state v = Std ->
    forallb symbol_char (list_ascii_of_string tok) = true ->
    feed v (list_ascii_of_string tok)
    = Make (rules v) (cfg v) (tup_buf v) (sym_buf v +:+ tok) (cfg_buf v)
           (symc v) Std.
Proof.
  induction tok as [|c tok IH]; intros v Hst Hall; simpl.
  - rewrite append_empty_r. destruct v; simpl in *. by subst.
  - simpl in Hall. apply andb_true_iff in Hall as [Hc Hall].
    assert (Hstep : state_reader c false v
                    = Make (rules v) (cfg v) (tup_buf v)
                           (Py.append_char (sym_buf v) c) (cfg_buf v)
                           (symc v) Std).
    { unfold state_reader. rewrite Hst. unfold reader_std. rewrite Hc.
      simpl. by rewrite Hst. }
    rewrite Hstep, IH; [|done|done]. simpl. by rewrite append_char_app.
Qed.

Lemma symbolb_parts (tok : string) :
  symbolb tok = true ->
  Py.truthy tok = true
  /\ forallb symbol_char (list_ascii_of_string tok) = true.
Proof. unfold symbolb. by rewrite andb_true_iff. Qed.

(** A symbol followed by the end of the file, or by a delimiter. *)
Lemma feed_symbol_end (tok : string) (c : ascii) (v : vars) :
  state v = Std ->
  sym_buf v = "" ->
  symbolb tok = true ->
  state_reader c true (feed v (list_ascii_of_string tok)) = store_symbol tok v.
Proof.
  intros Hst Hbuf Htok. apply symbolb_parts in Htok as [Hne Hall].
  rewrite feed_symbol_chars, Hbuf; [|done|done]. simpl.
  rewrite state_reader_stores; simpl; auto.
  change ("" +:+ tok) with tok. unfold store_symbol; simpl. by rewrite Hst.
Qed.

Lemma feed_symbol_delimiter (tok : string) (d : ascii) (v : vars) :
  state v = Std ->
  sym_buf v = "" ->
  symbolb tok = true ->
  delimiterb d = true ->
  feed v (list_ascii_of_string tok ++ [d]) = store_symbol tok v.
Proof.
  intros Hst Hbuf Htok Hd. apply symbolb_parts in Htok as [Hne Hall].
  rewrite feed_app, feed_symbol_chars, Hbuf; [|done|done]. simpl.
  rewrite state_reader_stores; simpl; auto.
  change ("" +:+ tok) with tok. unfold store_symbol; simpl. by rewrite Hst.
Qed.

Lemma feed_join_tokens (d : ascii) (toks : list string) :
  forall v c,
    state v = Std ->
    sym_buf v = "" ->
    forallb symbolb toks = true ->
    delimiterb d = true ->
    toks <> [] ->
    state_reader c true (feed v (join_tokens d toks))
    = fold_left (fun v tok => store_symbol tok v) toks v.
Proof.
  induction toks as [|tok toks IH]; intros v c Hst Hbuf Hall Hd Hne;
    [done|].
  simpl in Hall. apply andb_true_iff in Hall as [Htok Hall].
  destruct toks as [|tok2 toks].
  - simpl. by apply feed_symbol_end.
  - change (join_tokens d (tok :: tok2 :: toks))
      with (list_ascii_of_string tok ++ d :: join_tokens d (tok2 :: toks))%list.
    change (list_ascii_of_string tok ++ d :: join_tokens d (tok2 :: toks))%list
      with (list_ascii_of_string tok ++ [d] ++ join_tokens d (tok2 :: toks))%list.
    rewrite app_assoc, feed_app, feed_symbol_delimiter; try done.
    destruct (store_symbol_shape tok v) as (Hs & Hb & _).
    rewrite IH; try done; by rewrite ?Hs, ?Hb.
Qed.

Lemma store_five (v : vars) (a b c d e : string) :
  tup_buf v = [] ->
  store_symbol e (store_symbol d (store_symbol c (store_symbol b
    (store_symbol a v))))
  = Make (rules v ++ [mkRule a b c d e]) (cfg v) [] "" (cfg_buf v)
         (5 + symc v) (state v).
Proof.
  intros Hv.
  assert (H1 : store_symbol a v
               = Make (rules v) (cfg v) [a] "" (cfg_buf v) (S (symc v))
                      (state v)).
  { unfold store_symbol. by rewrite Hv. }
  rewrite H1. reflexivity.
Qed.

Lemma store_rule_tokens (rs : list Rule) :
  forall v,
    tup_buf v = [] ->
    sym_buf v = "" ->
    fold_left (fun v tok => store_symbol tok v)
              (List.concat (List.map rule_tokens rs)) v
    = Make (rules v ++ rs) (cfg v) [] "" (cfg_buf v)
           (symc v + 5 * length rs) (state v).
Proof.
  induction rs as [|r rs IH]; intros v Hv Hb.
  - simpl. rewrite app_nil_r, Nat.add_0_r.
    destruct v; simpl in *. by subst.
  - destruct r as [a b c d e].
    change (List.concat (List.map rule_tokens (mkRule a b c d e :: rs)))
      with ([a; b; c; d; e] ++ List.concat (List.map rule_tokens rs))%list.
    rewrite fold_left_app.
    change (fold_left (fun v tok => store_symbol tok v) [a; b; c; d; e] v)
      with (store_symbol e (store_symbol d (store_symbol c (store_symbol b
              (store_symbol a v))))).
    rewrite store_five; [|done]. rewrite IH; [|done|done]. simpl.
    rewrite <- app_assoc. simpl. f_equal. lia.
Qed.

Lemma join_tokens_not_empty (d : ascii) (tok : string) (toks : list string) :
  Py.truthy tok = true -> join_tokens d (tok :: toks) <> [].
Proof.
  intros Hne. destruct tok as [|c tok]; [discriminate|].
  destruct toks; discriminate.
Qed.

(** X14: rules written out, their fields separated by one delimiter, are
    read back as they were, with an empty configuration, whenever there is
    at least one rule and every field is a symbol of the reader's
    alphabet.  The last field has no delimiter after it: the closing call
    stores it. *)
Theorem read_written_rules (d : ascii) (rs : list Rule) :
  delimiterb d = true ->
  rs <> [] ->
  forallb symbolb (List.concat (List.map rule_tokens rs)) = true ->
  _read_rules (write_rules d rs) = inl (rs, ∅).
Proof.
  intros Hd Hne Hall. unfold _read_rules, write_rules.
  destruct rs as [|r rs]; [done|].
  destruct (last _) as [c|] eqn:Hlast.
  - rewrite feed_join_tokens; try done.
    rewrite store_rule_tokens; [|done|done]. cbn [symc rules cfg init].
    rewrite Nat.add_0_l, Nat.mul_comm, Nat.Div0.mod_mul. reflexivity.
  - apply last_None in Hlast. destruct r as [a b c0 d0 e]. exfalso.
    revert Hlast. apply join_tokens_not_empty.
    simpl in Hall. apply andb_true_iff in Hall as [Ha _].
    by apply symbolb_parts in Ha as [Ha _].
Qed.

(** Entering configuration mode: the symbol buffer, in lower case,
    becomes the key. *)
Lemma state_reader_colon (v : vars) :
  state v = Std ->
  state_reader ":" false v
  = Make (rules v) (cfg v) (tup_buf v) "" (Py.lower (sym_buf v)) (symc v) Cfg.
Proof. intros Hst. unfold state_reader. rewrite Hst. reflexivity. Qed.

Lemma feed_before_value (blanks : list ascii) :
  forall v,
    state v = Cfg ->
    sym_buf v = "" ->
    forallb (fun b => negb (value_char b)) blanks = true ->
    feed v blanks = v.
Proof.
  induction blanks as [|b blanks IH]; intros v Hst Hbuf Hall; [done|].
  simpl in Hall. apply andb_true_iff in Hall as [Hb Hall].
  apply negb_true_iff in Hb. simpl.
  assert (Hstep : state_reader b false v = v).
  { unfold state_reader. rewrite Hst. cbn iota. rewrite Hst.
    unfold reader_cfg. by rewrite Hb, Hbuf. }
  rewrite Hstep. by apply IH.
Qed.

Lemma feed_value_chars (value : string) :
  forall v,
    state v = Cfg ->
    forallb value_char (list_ascii_of_string value) = true ->
    feed v (list_ascii_of_string value)
    = Make (rules v) (cfg v) (tup_buf v) (sym_buf v +:+ value) (cfg_buf v)
           (symc v) Cfg.
Proof.
  induction value as [|c value IH]; intros v Hst Hall; simpl.
  - rewrite append_empty_r. destruct v; simpl in *. by subst.
  - simpl in Hall. apply andb_true_iff in Hall as [Hc Hall].
    assert (Hstep : state_reader c false v
                    = Make (rules v) (cfg v) (tup_buf v)
                           (Py.append_char (sym_buf v) c) (cfg_buf v)
                           (symc v) Cfg).
    { unfold state_reader. rewrite Hst. cbn iota. rewrite Hst.
      unfold reader_cfg. rewrite Hc. simpl. by rewrite Hst. }
    rewrite Hstep, IH; [|done|done]. simpl. by rewrite append_char_app.
Qed.

Lemma state_reader_value_end (w : ascii) (eof : bool) (v : vars) :
  state v = Cfg ->
  Py.truthy (sym_buf v) = true ->
  eof = true \/ value_char w = false ->
  state_reader w eof v
  = Make (rules v) (<[cfg_buf v := sym_buf v]> (cfg v)) (tup_buf v) "" ""
         (symc v) Std.
Proof.
  intros Hst Hbuf Hend. unfold state_reader. rewrite Hst. cbn iota.
  rewrite Hst. unfold reader_cfg.
  assert (H1 : value_char w && negb eof = false).
  { destruct Hend as [-> | ->]; [apply andb_false_r | done]. }
  by rewrite H1, Hbuf.
Qed.

(** X15: in symbol mode a colon turns the symbol being read, in lower
    case, into a configuration key; the characters up to the next white
    space or colon, or up to the end of the file, are its value, white
    space before the value being skipped.  The pair is stored over any
    earlier value of the key, and it adds nothing to the symbols counted
    or to the rule being collected. *)
Theorem config_pair_stored
    (v : vars) (blanks : list ascii) (value : string) (w c : ascii) :
  state v = Std ->
  forallb (fun b => negb (value_char b)) blanks = true ->
  Py.truthy value = true ->
  forallb value_char (list_ascii_of_string value) = true ->
  value_char w = false ->
  feed v (":"%char :: blanks ++ list_ascii_of_string value ++ [w])
  = Make (rules v) (<[Py.lower (sym_buf v) := value]> (cfg v)) (tup_buf v)
         "" "" (symc v) Std
  /\ state_reader c true
       (feed v (":"%char :: blanks ++ list_ascii_of_string value))
     = Make (rules v) (<[Py.lower (sym_buf v) := value]> (cfg v)) (tup_buf v)
            "" "" (symc v) Std.
Proof.
  intros Hst Hblanks Hne Hvalue Hw.
  assert (Hpending :
            feed v (":"%char :: blanks ++ list_ascii_of_string value)
            = Make (rules v) (cfg v) (tup_buf v) value (Py.lower (sym_buf v))
                   (symc v) Cfg).
  { simpl. rewrite state_reader_colon; [|done].
    rewrite feed_app, (feed_before_value blanks); [|done|done|done].
    rewrite feed_value_chars; [|done|done]. reflexivity. }
  split.
  - replace (":"%char :: blanks ++ list_ascii_of_string value ++ [w])%list
      with ((":"%char :: blanks ++ list_ascii_of_string value) ++ [w])%list
      by (simpl; by rewrite <- app_assoc).
    rewrite feed_app, Hpending. simpl.
    rewrite state_reader_value_end; auto.
  - rewrite Hpending, state_reader_value_end; auto.
Qed.

Lemma closing_call_idle (c : ascii) (v : vars) :
  state v = Cmt \/ (state v = Std /\ sym_buf v = "") ->
  outcome (state_reader c true v) = outcome v.
Proof.
  intros [Hst | [Hst Hbuf]]; unfold state_reader; rewrite Hst; cbn iota.
  - rewrite Hst. unfold reader_cmt. by destruct (Ascii.eqb c newline).
  - unfold reader_std. rewrite Hbuf, !andb_false_r. cbn [Py.truthy].
    destruct (Ascii.eqb c "#"); cbn [state].
    + unfold reader_cmt. by destruct (Ascii.eqb c newline).
    + by rewrite Hst.
Qed.

Lemma read_rules_outcome (text : list ascii) (c : ascii) :
  last text = Some c ->
  _read_rules text = outcome (state_reader c true (feed init text)).
Proof. intros Hl. unfold _read_rules. by rewrite Hl. Qed.

Lemma feed_open_comment (v : vars) (body : list ascii) :
  state v = Std ->
  sym_buf v = "" ->
  newline ∉ body ->
  feed v ("#"%char :: body)
  = Make (rules v) (cfg v) (tup_buf v) (sym_buf v) (cfg_buf v) (symc v) Cmt.
Proof.
  intros Hst Hbuf Hnl. simpl.
  assert (Hv1 : state_reader "#" false v
                = Make (rules v) (cfg v) (tup_buf v) (sym_buf v)
                       (cfg_buf v) (symc v) Cmt).
  { unfold state_reader. rewrite Hst. unfold reader_std.
    rewrite Hbuf. reflexivity. }
  rewrite Hv1. by apply feed_comment_body.
Qed.

(** X16: a comment that the end of the file cuts short is discarded as
    well: a file that ends in such a comment reads as the file without
    it; and a file that holds nothing but a comment reads as no rules and
    no configuration, where the empty file raises [NameError]. *)
Theorem unterminated_comment (before body : list ascii) :
  state (feed init before) = Std ->
  sym_buf (feed init before) = "" ->
  newline ∉ body ->
  (before <> [] ->
   _read_rules (before ++ "#"%char :: body) = _read_rules before)
  /\ (before = [] ->
      _read_rules (before ++ "#"%char :: body) = inl ([], ∅)
      /\ _read_rules before = inr (NameError "char")).
Proof.
  intros Hst Hbuf Hnl.
  assert (Hlast : exists c, last (before ++ "#"%char :: body) = Some c).
  { destruct (last (before ++ "#"%char :: body)) eqn:Hl; [eauto|].
    apply last_None in Hl. by destruct before. }
  destruct Hlast as [c Hc].
  assert (Hread : _read_rules (before ++ "#"%char :: body)
                  = outcome (feed init before)).
  { rewrite (read_rules_outcome _ c Hc), feed_app.
    rewrite feed_open_comment; [|done|done|done].
    rewrite closing_call_idle; [|by left]. reflexivity. }
  split.
  - intros Hne. rewrite Hread.
    destruct (last before) as [c'|] eqn:Hl;
      [|apply last_None in Hl; contradiction].
    rewrite (read_rules_outcome _ c' Hl), closing_call_idle; auto.
  - intros ->. split; [|reflexivity]. rewrite Hread. reflexivity.
Qed.

Lemma rule_tokens_length (rs : list Rule) :
  length (List.concat (List.map rule_tokens rs)) = (5 * length rs)%nat.
Proof.
  induction rs as [|r rs IH]; [done|].
  simpl. rewrite IH. lia.
Qed.

Lemma state_reader_only_adds (char : ascii) (eof : bool) (v : vars) :
  exists more_rules more_tokens,
    rules (state_reader char eof v) = (rules v ++ more_rules)%list
    /\ stored_tokens (state_reader char eof v)
       = (stored_tokens v ++ more_tokens)%list
    /\ symc (state_reader char eof v) = (symc v + length more_tokens)%nat
    /\ dom (cfg v) ⊆ dom (cfg (state_reader char eof v)).
Proof.
  assert (Hsame : forall v' : vars,
             rules v' = rules v -> tup_buf v' = tup_buf v ->
             symc v' = symc v -> dom (cfg v) ⊆ dom (cfg v') ->
             exists more_rules more_tokens,
               rules v' = (rules v ++ more_rules)%list
               /\ stored_tokens v' = (stored_tokens v ++ more_tokens)%list
               /\ symc v' = (symc v + length more_tokens)%nat
               /\ dom (cfg v) ⊆ dom (cfg v')).
  { intros v' H1 H2 H3 H4. exists [], []. unfold stored_tokens.
    rewrite H1, H2, H3, !app_nil_r. simpl. repeat split; auto. }
  unfold state_reader. destruct (state v) eqn:Hst.
  - unfold reader_std.
    destruct (symbol_char char && negb eof);
      [cbn [state]; rewrite Hst; apply Hsame; first [reflexivity | set_solver]|].
    destruct (Ascii.eqb char ":" && negb eof).
    { cbn [state]. unfold reader_cfg. cbn [sym_buf Py.truthy].
      destruct (value_char char && negb eof); apply Hsame; first [reflexivity | set_solver]. }
    destruct (Py.truthy (sym_buf v)).
    + fold (store_symbol (sym_buf v) v).
      destruct (store_symbol_shape (sym_buf v) v)
        as (Hs & _ & Hcfg & _ & Hsymc & Htok & more & Hrules).
      rewrite Hs, Hst. exists more, [sym_buf v].
      rewrite Hrules, Htok, Hsymc, Hcfg. simpl. repeat split; auto. lia.
    + destruct (Ascii.eqb char "#"); cbn [state].
      * unfold reader_cmt. destruct (Ascii.eqb char newline); apply Hsame; first [reflexivity | set_solver].
      * rewrite Hst. apply Hsame; first [reflexivity | set_solver].
  - rewrite Hst. unfold reader_cfg.
    destruct (value_char char && negb eof); [apply Hsame; first [reflexivity | set_solver]|].
    destruct (Py.truthy (sym_buf v)); [|apply Hsame; first [reflexivity | set_solver]].
    apply Hsame; try reflexivity. cbn [cfg]. rewrite dom_insert_L. set_solver.
  - rewrite Hst. unfold reader_cmt.
    destruct (Ascii.eqb char newline); apply Hsame; first [reflexivity | set_solver].
Qed.

(** X18: reading on never takes back what has been read: the rules found
    so far stay, in their order, before the new ones; so do the symbols
    stored; the counter grows by the number of new symbols; and no
    configuration key disappears. *)
Theorem feed_only_adds (text : list ascii) :
  forall v,
    exists more_rules more_tokens,
      rules (feed v text) = (rules v ++ more_rules)%list
      /\ stored_tokens (feed v text) = (stored_tokens v ++ more_tokens)%list
      /\ symc (feed v text) = (symc v + length more_tokens)%nat
      /\ dom (cfg v) ⊆ dom (cfg (feed v text)).
Proof.
  induction text as [|char text IH]; intros v; simpl.
  - exists [], []. rewrite !app_nil_r. simpl. repeat split; auto.
  - destruct (state_reader_only_adds char false v)
      as (r1 & t1 & Hr1 & Ht1 & Hc1 & Hd1).
    destruct (IH (state_reader char false v))
      as (r2 & t2 & Hr2 & Ht2 & Hc2 & Hd2).
    exists (r1 ++ r2)%list, (t1 ++ t2)%list.
    rewrite Hr2, Hr1, Ht2, Ht1, Hc2, Hc1, length_app, !app_assoc.
    repeat split; auto; [lia | set_solver].
Qed.

End Reading.

(* ------------------------------------------------------------------ *)
(** ** The further theorems at the samples *)

Section EngineInstances.
Import TuringMachine.

(** A rule whose direction is the letter R. *)
Lemma step_value_error_witness :
  Tape.is_blank (_tape misdirected_machine) = false
  /\ find_rule misdirected_machine (state misdirected_machine)
       (Tape.get (_tape misdirected_machine) (head misdirected_machine))
     = inl (mkRule "1" "a" "0" "b" "R")
  /\ Py.int "R" = None
  /\ step misdirected_machine
     = (Make (rules misdirected_machine) "1" "0" "1" 0
             (Some (mkRule "1" "a" "0" "b" "R"))
             (Tape.set (_tape misdirected_machine) 0 "b")
             1 0 ["1"],
        Some (ValueError "R")).
Proof.
  assert (Hb : Tape.is_blank (_tape misdirected_machine) = false).
  { vm_compute. reflexivity. }
  assert (Hf : find_rule misdirected_machine (state misdirected_machine)
                 (Tape.get (_tape misdirected_machine)
                           (head misdirected_machine))
               = inl (mkRule "1" "a" "0" "b" "R")).
  { vm_compute. reflexivity. }
  assert (Hd : Py.int (head_direction (mkRule "1" "a" "0" "b" "R")) = None).
  { vm_compute. reflexivity. }
  split; [exact Hb|]. split; [exact Hf|]. split; [exact Hd|].
  exact (proj1 (step_value_error misdirected_machine) _ Hb Hf Hd).
Defined.

Lemma step_rule_not_found_witness :
  Tape.is_blank (_tape ruleless_machine) = false
  /\ (Forall (fun r => ~ covers (state ruleless_machine)
                (Tape.get (_tape ruleless_machine) (head ruleless_machine)) r)
             (rules ruleless_machine)
      <-> exists self' st sc,
          step ruleless_machine = (self', Some (RuleNotFound st sc))).
Proof.
  assert (Hb : Tape.is_blank (_tape ruleless_machine) = false).
  { vm_compute. reflexivity. }
  split; [exact Hb|]. exact (proj1 (step_rule_not_found _ Hb)).
Defined.

Lemma run_blank_tape_witness :
  STATE_INIT (__init__ increment_rules) <> STATE_HALT (__init__ increment_rules)
  /\ run 3 (tape_setter "" (__init__ increment_rules))
     = Raised (tape_setter "" (__init__ increment_rules)) TapeBlank.
Proof.
  assert (Hne : STATE_INIT (__init__ increment_rules)
                <> STATE_HALT (__init__ increment_rules)).
  { vm_compute. discriminate. }
  split; [exact Hne|]. exact (run_blank_tape _ 2 Hne).
Defined.

Lemma tape_not_blank_after_step_witness :
  steps 2 increment_machine = Some (after 2 increment_machine)
  /\ Tape.is_blank (_tape (after 2 increment_machine)) = false
  /\ (step (after 2 increment_machine)).2 <> Some TapeBlank.
Proof.
  assert (Hs : steps 2 increment_machine = Some (after 2 increment_machine)).
  { vm_compute. reflexivity. }
  split; [exact Hs|]. exact (tape_not_blank_after_step 1 _ _ Hs).
Defined.

Lemma counters_grow_witness :
  steps 4 increment_machine = Some (after 4 increment_machine)
  /\ stepc (after 4 increment_machine) = (stepc increment_machine + 4)%nat
  /\ (head_moves increment_machine
      <= head_moves (after 4 increment_machine))%nat
  /\ (head_moves (after 4 increment_machine)
      <= head_moves increment_machine + 4)%nat.
Proof.
  assert (Hs : steps 4 increment_machine = Some (after 4 increment_machine)).
  { vm_compute. reflexivity. }
  split; [exact Hs|]. exact (counters_grow 4 _ _ Hs).
Defined.

Lemma path_extends_witness :
  steps 4 increment_machine = Some (after 4 increment_machine)
  /\ exists visited,
      path (after 4 increment_machine)
      = (path increment_machine ++ visited)%list
      /\ length visited = 4%nat
      /\ (4%nat <> 0%nat ->
          last visited = Some (state (after 4 increment_machine))).
Proof.
  assert (Hs : steps 4 increment_machine = Some (after 4 increment_machine)).
  { vm_compute. reflexivity. }
  split; [exact Hs|]. exact (path_extends 4 _ _ Hs).
Defined.

Lemma run_never_returns_witness :
  rules spinning_machine = [mkRule "1" "*" "1" "x" "1"]
  /\ self_loop (state spinning_machine) (mkRule "1" "*" "1" "x" "1")
  /\ state spinning_machine <> STATE_HALT spinning_machine
  /\ Tape.is_blank (_tape spinning_machine) = false
  /\ exists self',
      run 7 spinning_machine = Running self'
      /\ stepc self' = (stepc spinning_machine + 7)%nat
      /\ state self' = state spinning_machine.
Proof.
  assert (Hr : rules spinning_machine = [mkRule "1" "*" "1" "x" "1"]).
  { vm_compute. reflexivity. }
  assert (Hl : self_loop (state spinning_machine) (mkRule "1" "*" "1" "x" "1")).
  { repeat split. exists 1. vm_compute. reflexivity. }
  assert (Hne : state spinning_machine <> STATE_HALT spinning_machine).
  { vm_compute. discriminate. }
  assert (Hb : Tape.is_blank (_tape spinning_machine) = false).
  { vm_compute. reflexivity. }
  split; [exact Hr|]. split; [exact Hl|]. split; [exact Hne|].
  split; [exact Hb|]. exact (run_never_returns 7 _ _ _ Hr Hl Hne Hb).
Defined.

Lemma next_input_starts_afresh_witness :
  main_run 4 (__init__ increment_rules) "111"
  = Returned (after 4 increment_machine) (_tape (after 4 increment_machine))
  /\ tape_setter "11" (after 4 increment_machine)
     = tape_setter "11" (__init__ increment_rules)
  /\ main_run 3 (after 4 increment_machine) "11"
     = main_run 3 (__init__ increment_rules) "11".
Proof.
  assert (Hr : main_run 4 (__init__ increment_rules) "111"
               = Returned (after 4 increment_machine)
                          (_tape (after 4 increment_machine))).
  { vm_compute. reflexivity. }
  split; [exact Hr|].
  exact (next_input_starts_afresh _ _ _ "111" "11" 4 3 Hr).
Defined.

Lemma stepping_mode_follows_run_witness :
  Forall (fun x => Py.code x <> 3%N) [" "; "i"; " "; " "]%char
  /\ state increment_machine <> STATE_HALT increment_machine
  /\ same_ending
       (_stepping_mode [" "; "i"; " "; " "]%char false increment_machine)
       (run 4 increment_machine).
Proof.
  assert (Hk : Forall (fun x => Py.code x <> 3%N) [" "; "i"; " "; " "]%char).
  { repeat (constructor; [vm_compute; discriminate|]). constructor. }
  assert (Hne : state increment_machine <> STATE_HALT increment_machine).
  { vm_compute. discriminate. }
  split; [exact Hk|]. split; [exact Hne|].
  exact (stepping_mode_follows_run _ false _ Hk Hne).
Defined.

Lemma stepping_mode_steps_first_witness :
  Py.code " " <> 3%N
  /\ state halted_machine = STATE_HALT halted_machine
  /\ step halted_machine
     = (set_stepc 1 halted_machine, Some (RuleNotFound "1" "a"))
  /\ run 5 halted_machine = Returned halted_machine (_tape halted_machine)
  /\ _stepping_mode [" "; " "]%char false halted_machine
     = KeyRaised (set_stepc 1 halted_machine)
                 (if Ascii.eqb " " "i" then negb false else false)
                 (RuleNotFound "1" "a").
Proof.
  assert (Hx : Py.code " " <> 3%N) by (vm_compute; discriminate).
  assert (Hh : state halted_machine = STATE_HALT halted_machine).
  { vm_compute. reflexivity. }
  assert (Hs : step halted_machine
               = (set_stepc 1 halted_machine, Some (RuleNotFound "1" "a"))).
  { vm_compute. reflexivity. }
  split; [exact Hx|]. split; [exact Hh|]. split; [exact Hs|].
  exact (stepping_mode_steps_first " " [" "%char] false _ _ _ 5 Hx Hh Hs).
Defined.

End EngineInstances.

Section ReadingInstances.
Import ReadRules.

Lemma read_written_rules_witness :
  delimiterb " " = true
  /\ increment_rules <> []
  /\ forallb symbolb (List.concat (List.map rule_tokens increment_rules)) = true
  /\ _read_rules (write_rules " " increment_rules) = inl (increment_rules, ∅).
Proof.
  assert (Hd : delimiterb " " = true) by (vm_compute; reflexivity).
  assert (Hne : increment_rules <> []) by discriminate.
  assert (Hall : forallb symbolb
                   (List.concat (List.map rule_tokens increment_rules)) = true).
  { vm_compute. reflexivity. }
  split; [exact Hd|]. split; [exact Hne|]. split; [exact Hall|].
  exact (read_written_rules " " increment_rules Hd Hne Hall).
Defined.

(** The pair [Halt: Z], ended by a newline or by the end of the file. *)
Lemma config_pair_stored_witness :
  state (feed init (list_ascii_of_string "Halt")) = Std
  /\ feed (feed init (list_ascii_of_string "Halt"))
          (":"%char :: [" "%char] ++ list_ascii_of_string "Z" ++ [newline])
     = Make [] (<["halt" := "Z"]> ∅) [] "" "" 0 Std
  /\ state_reader " " true
       (feed (feed init (list_ascii_of_string "Halt"))
             (":"%char :: [" "%char] ++ list_ascii_of_string "Z"))
     = Make [] (<["halt" := "Z"]> ∅) [] "" "" 0 Std.
Proof.
  assert (Hst : state (feed init (list_ascii_of_string "Halt")) = Std).
  { vm_compute. reflexivity. }
  split; [exact Hst|].
  exact (config_pair_stored (feed init (list_ascii_of_string "Halt"))
           [" "%char] "Z" newline " " Hst eq_refl eq_refl eq_refl eq_refl).
Defined.

Lemma unterminated_comment_witness :
  state (feed init before_comment) = Std
  /\ sym_buf (feed init before_comment) = ""
  /\ (newline ∉ comment_body)
  /\ before_comment <> []
  /\ _read_rules (before_comment ++ "#"%char :: comment_body)
     = _read_rules before_comment.
Proof.
  assert (Hst : state (feed init before_comment) = Std).
  { vm_compute. reflexivity. }
  assert (Hbuf : sym_buf (feed init before_comment) = "").
  { vm_compute. reflexivity. }
  assert (Hne : before_comment <> []) by discriminate.
  split; [exact Hst|]. split; [exact Hbuf|].
  split; [exact comment_body_no_newline|]. split; [exact Hne|].
  exact (proj1 (unterminated_comment before_comment comment_body Hst Hbuf
                  comment_body_no_newline) Hne).
Defined.

End ReadingInstances.

(* ------------------------------------------------------------------ *)
(** ** The reader against the text *)

Section Tokens.
Import ReadRules.

Lemma token_char_symbol (c : ascii) : token_char c = symbol_char c.
Proof. destruct c as [[] [] [] [] [] [] [] []]; vm_compute; reflexivity. Qed.

Lemma in_value_value (c : ascii) : in_value c = value_char c.
Proof. destruct c as [[] [] [] [] [] [] [] []]; vm_compute; reflexivity. Qed.

Lemma span_spec (p : ascii -> bool) (text : list ascii) :
  text = ((span p text).1 ++ (span p text).2)%list
  /\ forallb p (span p text).1 = true
  /\ match (span p text).2 with
     | [] => True
     | c :: _ => p c = false
     end.
Proof.
  induction text as [|c text (IH1 & IH2 & IH3)]; simpl; [done|].
  destruct (p c) eqn:Hc; simpl.
  - rewrite Hc, IH2. repeat split; auto. by rewrite <- IH1.
  - auto.
Qed.

Lemma after_newline_spec (text : list ascii) :
  ((newline ∉ text) /\ after_newline text = [])
  \/ exists body,
      (newline ∉ body)
      /\ text = (body ++ newline :: after_newline text)%list.
Proof.
  induction text as [|c text IH]; simpl.
  - left. split; [|done]. apply not_elem_of_nil.
  - destruct (Ascii.eqb_spec c newline) as [->|Hne].
    + right. exists []. split; [apply not_elem_of_nil | done].
    + destruct IH as [[Hnl Hnil] | (body & Hnl & Heq)].
      * left. split; [|done]. intros Hin.
        apply elem_of_cons in Hin as [Heq|Hin]; [congruence | contradiction].
      * right. exists (c :: body). split.
        -- intros Hin. apply elem_of_cons in Hin as [Heq'|Hin];
             [congruence | contradiction].
        -- simpl. by rewrite <- Heq.
Qed.

Lemma forallb_pointwise (p q : ascii -> bool) (l : list ascii) :
  (forall c, p c = q c) -> forallb p l = forallb q l.
Proof.
  intros Hpq. induction l as [|c l IH]; simpl; [done|]. by rewrite Hpq, IH.
Qed.

Lemma truthy_word (word : list ascii) :
  Py.truthy (string_of_list_ascii word)
  = match word with [] => false | _ => true end.
Proof. by destruct word. Qed.

Lemma lex_nil (fuel : nat) : lex fuel [] = [].
Proof. by destruct fuel. Qed.

(** A word piles up in the symbol buffer. *)
Lemma feed_word (word : list ascii) (v : vars) :
  state v = Std ->
  sym_buf v = "" ->
  forallb token_char word = true ->
  feed v word
  = Make (rules v) (cfg v) (tup_buf v) (string_of_list_ascii word)
         (cfg_buf v) (symc v) Std.
Proof.
  intros Hst Hbuf Hall.
  rewrite <- (list_ascii_of_string_of_list_ascii word) at 1.
  rewrite feed_symbol_chars, Hbuf; [done | done |].
  rewrite list_ascii_of_string_of_list_ascii.
  rewrite <- Hall. apply forallb_pointwise. intros c.
  by rewrite token_char_symbol.
Qed.

Lemma feed_value (value : list ascii) (v : vars) :
  state v = Cfg ->
  sym_buf v = "" ->
  forallb in_value value = true ->
  feed v value
  = Make (rules v) (cfg v) (tup_buf v) (string_of_list_ascii value)
         (cfg_buf v) (symc v) Cfg.
Proof.
  intros Hst Hbuf Hall.
  rewrite <- (list_ascii_of_string_of_list_ascii value) at 1.
  rewrite feed_value_chars, Hbuf; [done | done |].
  rewrite list_ascii_of_string_of_list_ascii.
  rewrite <- Hall. apply forallb_pointwise. intros c.
  by rewrite in_value_value.
Qed.

Lemma feed_comment (v : vars) (body : list ascii) :
  state v = Std ->
  sym_buf v = "" ->
  newline ∉ body ->
  feed v ("#"%char :: body ++ [newline]) = v.
Proof.
  intros Hst Hbuf Hnl.
  change ("#"%char :: body ++ [newline])%list
    with (("#"%char :: body) ++ [newline])%list.
  rewrite feed_app, feed_open_comment; [|done|done|done]. simpl.
  unfold state_reader. simpl. destruct v; simpl in *. by subst.
Qed.

(** A character that is no symbol character, no colon and no [#] is
    skipped when no symbol is being read. *)
Lemma state_reader_skips (c : ascii) (v : vars) :
  state v = Std ->
  sym_buf v = "" ->
  symbol_char c = false ->
  Ascii.eqb c ":" = false ->
  Ascii.eqb c "#" = false ->
  state_reader c false v = v.
Proof.
  intros Hst Hbuf Hc Hcolon Hhash. unfold state_reader. rewrite Hst.
  unfold reader_std. rewrite Hc, Hcolon, Hbuf, Hhash. simpl. by rewrite Hst.
Qed.

(** What the closing call adds to the symbols stored. *)
Lemma closing_call_tokens (c : ascii) (v : vars) :
  stored_tokens (state_reader c true v)
  = (stored_tokens v
     ++ match state v with
        | Std => if Py.truthy (sym_buf v) then [sym_buf v] else []
        | _ => []
        end)%list.
Proof.
  unfold state_reader. destruct (state v) eqn:Hst.
  - unfold reader_std. rewrite !andb_false_r.
    destruct (Py.truthy (sym_buf v)) eqn:Hbuf.
    + fold (store_symbol (sym_buf v) v).
      destruct (store_symbol_shape (sym_buf v) v) as (Hs & _ & _ & _ & _ & Ht & _).
      by rewrite Hs, Hst.
    + rewrite app_nil_r. destruct (Ascii.eqb c "#"); cbn [state].
      * unfold reader_cmt. by destruct (Ascii.eqb c newline).
      * by rewrite Hst.
  - rewrite Hst, app_nil_r. unfold reader_cfg. rewrite andb_false_r.
    by destruct (Py.truthy (sym_buf v)).
  - rewrite Hst, app_nil_r. unfold reader_cmt.
    by destruct (Ascii.eqb c newline).
Qed.

Lemma same_stored (v v' : vars) :
  rules v' = rules v -> tup_buf v' = tup_buf v ->
  stored_tokens v' = stored_tokens v.
Proof. intros H1 H2. unfold stored_tokens. by rewrite H1, H2. Qed.

(** The reader stores the symbols of the text, and nothing else. *)
Lemma lex_refines (fuel : nat) :
  forall text v c,
    (length text < fuel)%nat ->
    state v = Std ->
    sym_buf v = "" ->
    stored_tokens (state_reader c true (feed v text))
    = (stored_tokens v ++ lex fuel text)%list.
Proof.
  induction fuel as [|fuel IH]; intros text v c Hlen Hst Hbuf; [lia|].
  cbn [lex].
  destruct (span_spec token_char text) as (Htext & Hword & Hnext).
  set (word := (span token_char text).1) in *.
  set (rest := (span token_char text).2) in *.
  clearbody word rest. subst text.
  rewrite length_app in Hlen.
  rewrite feed_app, (feed_word word v Hst Hbuf Hword).
  set (v1 := Make (rules v) (cfg v) (tup_buf v) (string_of_list_ascii word)
                  (cfg_buf v) (symc v) Std).
  assert (Hv1 : stored_tokens v1 = stored_tokens v) by by apply same_stored.
  destruct rest as [|d rest].
  - (* the end of the file ends the word *)
    cbn [feed]. rewrite closing_call_tokens, Hv1. cbn [state sym_buf v1].
    rewrite truthy_word. by destruct word.
  - cbn [feed]. cbn [length] in Hlen.
    assert (Hd : symbol_char d = false)
      by (rewrite <- token_char_symbol; exact Hnext).
    destruct (Ascii.eqb_spec d ":") as [->|Hcolon].
    + (* a configuration pair *)
      rewrite (state_reader_colon v1) by done.
      cbn [rules cfg tup_buf sym_buf symc v1].
      destruct (span_spec (fun b => negb (in_value b)) rest)
        as (Hrest & Hblanks & Hvnext).
      set (blanks := (span (fun b => negb (in_value b)) rest).1) in *.
      set (value_on := (span (fun b => negb (in_value b)) rest).2) in *.
      clearbody blanks value_on. subst rest.
      rewrite length_app in Hlen.
      rewrite feed_app, (feed_before_value blanks); [|done|done|].
      2: { rewrite <- Hblanks. apply forallb_pointwise. intros b.
           by rewrite in_value_value. }
      destruct (span_spec in_value value_on) as (Hvon & Hvalue & Hwnext).
      set (value := (span in_value value_on).1) in *.
      set (rest3 := (span in_value value_on).2) in *.
      clearbody value rest3. subst value_on.
      rewrite length_app in Hlen.
      rewrite feed_app, (feed_value value); [|done|done|done].
      cbn [rules cfg tup_buf cfg_buf symc].
      destruct rest3 as [|w rest4].
      * cbn [tail feed]. rewrite lex_nil, closing_call_tokens.
        cbn [state]. rewrite !app_nil_r. by apply same_stored.
      * cbn [tail feed]. cbn [length] in Hlen.
        assert (Hw : value_char w = false)
          by (rewrite <- in_value_value; exact Hwnext).
        assert (Hne : Py.truthy (string_of_list_ascii value) = true).
        { rewrite truthy_word. destruct value as [|a value]; [|done].
          simpl in Hvnext. rewrite Hwnext in Hvnext. discriminate. }
        rewrite (state_reader_value_end w false); [|done|exact Hne|by right].
        cbn [rules cfg tup_buf sym_buf cfg_buf symc].
        rewrite IH; [|lia|done|done]. f_equal.
    + apply Ascii.eqb_neq in Hcolon.
      destruct (Ascii.eqb d "#" && negb (Py.truthy (string_of_list_ascii word)))
        eqn:Hhash.
      * (* a comment *)
        apply andb_true_iff in Hhash as [Hhash Hempty].
        apply Ascii.eqb_eq in Hhash as ->.
        rewrite truthy_word in Hempty. destruct word; [|discriminate].
        assert (Heq : v1 = v).
        { subst v1. destruct v; simpl in *. by subst. }
        rewrite Heq in *.
        change (feed (state_reader "#" false v) rest)
          with (feed v ("#"%char :: rest)).
        destruct (after_newline_spec rest) as [[Hnl Hnil] | (body & Hnl & Hbody)].
        -- rewrite Hnil, lex_nil, feed_open_comment by done.
           rewrite closing_call_tokens. cbn [state]. rewrite !app_nil_r.
           by apply same_stored.
        -- set (rest4 := after_newline rest) in *. clearbody rest4. subst rest.
           rewrite length_app in Hlen. cbn [length] in Hlen.
           change ("#"%char :: body ++ newline :: rest4)%list
             with (("#"%char :: body) ++ [newline] ++ rest4)%list.
           rewrite app_assoc, feed_app.
           change (("#"%char :: body) ++ [newline])%list
             with ("#"%char :: body ++ [newline])%list.
           rewrite feed_comment by done. simpl in Hlen.
           apply IH; [lia | done | done].
      * (* any other character ends the word *)
        destruct word as [|a word].
        -- simpl in Hhash. rewrite andb_true_r in Hhash.
           assert (Heq : v1 = v).
           { subst v1. destruct v; simpl in *. by subst. }
           rewrite Heq, (state_reader_skips d) by done.
           cbn [emit]. apply IH; [lia | done | done].
        -- rewrite (state_reader_stores d false); [|done|done|].
           2: { right. unfold delimiterb. by rewrite Hd, Hcolon. }
           cbn [sym_buf v1].
           destruct (store_symbol_shape (string_of_list_ascii (a :: word)) v1)
             as (Hs & Hb & _ & _ & _ & Ht & _).
           rewrite IH; [|simpl in Hlen; lia|by rewrite Hs|done].
           rewrite Ht, Hv1, <- app_assoc. reflexivity.
Qed.

(** The symbols the reader has stored at the end of a file are the
    symbols of its text. *)
Lemma stored_tokens_of_text (text : list ascii) :
  stored_tokens (end_of_file text) = symbol_tokens text.
Proof.
  unfold end_of_file, symbol_tokens.
  rewrite (lex_refines (S (length text))); [reflexivity | lia | done | done].
Qed.

(** C5: the reader raises [IncorrectSymbolCount(count)] exactly when the
    number of symbol tokens of the text, outside configuration pairs, is
    not a multiple of five, and [count] is that number; so a file with
    exactly seven such tokens raises [IncorrectSymbolCount(7)]. *)
Theorem symbol_count_checked (text : list ascii) :
  let tokens := symbol_tokens text in
  (forall count,
      _read_rules text = inr (IncorrectSymbolCount count) <->
      count = length tokens /\ (length tokens mod 5 <> 0)%nat)
  /\ (length tokens = 7%nat ->
      _read_rules text = inr (IncorrectSymbolCount 7)).
Proof.
  cbn zeta. rewrite <- stored_tokens_of_text.
  destruct (end_of_file_invariant text) as [Hc _].
  assert (Hiff : forall count,
             _read_rules text = inr (IncorrectSymbolCount count) <->
             count = length (stored_tokens (end_of_file text))
             /\ (length (stored_tokens (end_of_file text)) mod 5 <> 0)%nat).
  { intros count. rewrite Hc. unfold _read_rules, end_of_file.
    destruct (last text) as [c|] eqn:Hlast; cbn [default id].
    - destruct (Nat.eqb_spec (symc (state_reader c true (feed init text)) mod 5) 0)
        as [Hz|Hnz]; cbn [negb].
      + split; [discriminate | intros [_ Hn]; contradiction].
      + split; [by intros [= <-] | by intros [-> _]].
    - apply last_None in Hlast as ->.
      split; [discriminate | intros [_ Hn]; by destruct Hn]. }
  split; [exact Hiff|]. intros H7. apply Hiff. rewrite H7. split; [done|].
  by compute.
Qed.

(** X17: when the reader returns, the fields of the rules returned, in
    their order, are exactly the symbols of the text, five for each rule;
    no symbol of the text is left in the tuple buffer. *)
Theorem read_rules_returns
    (text : list ascii) (rs : list Rule) (c : gmap string string) :
  _read_rules text = inl (rs, c) ->
  List.concat (List.map rule_tokens rs) = symbol_tokens text
  /\ length (symbol_tokens text) = (5 * length rs)%nat
  /\ tup_buf (end_of_file text) = []
  /\ rs = rules (end_of_file text)
  /\ c = cfg (end_of_file text).
Proof.
  intros Hr. rewrite <- stored_tokens_of_text.
  destruct (end_of_file_invariant text) as [Hc Hl].
  unfold _read_rules in Hr. unfold end_of_file in *.
  destruct (last text) as [ch|] eqn:Hlast; [|discriminate].
  cbn [default id] in *.
  set (v := state_reader ch true (feed init text)) in *.
  destruct (Nat.eqb_spec (symc v mod 5) 0) as [Hz|Hnz];
    cbn [negb] in Hr; [|discriminate].
  injection Hr as <- <-.
  unfold stored_tokens in Hc. rewrite length_app, rule_tokens_length in Hc.
  assert (Hmod : (length (tup_buf v) mod 5 = 0)%nat).
  { rewrite <- Hc in Hz. rewrite Nat.add_comm, Nat.mul_comm in Hz.
    by rewrite Nat.Div0.mod_add in Hz. }
  rewrite Nat.mod_small in Hmod by exact Hl.
  destruct (tup_buf v) eqn:Htup; [|discriminate].
  unfold stored_tokens. rewrite Htup, app_nil_r, rule_tokens_length.
  repeat split; auto.
Qed.

(** Seven symbols. *)
Lemma symbol_count_checked_witness :
  symbol_tokens (list_ascii_of_string "a b c d e f g")
  = ["a"; "b"; "c"; "d"; "e"; "f"; "g"]
  /\ length (symbol_tokens (list_ascii_of_string "a b c d e f g")) = 7%nat
  /\ _read_rules (list_ascii_of_string "a b c d e f g")
     = inr (IncorrectSymbolCount 7).
Proof.
  assert (H7 : length (symbol_tokens (list_ascii_of_string "a b c d e f g"))
               = 7%nat).
  { vm_compute. reflexivity. }
  split; [vm_compute; reflexivity|]. split; [exact H7|].
  exact (proj2 (symbol_count_checked (list_ascii_of_string "a b c d e f g"))
           H7).
Defined.

(** The relabelled file: two rules, ten symbols; the configuration pairs
    and the newlines give none. *)
Lemma read_rules_returns_witness :
  _read_rules relabelled_file = inl relabelled_parsed
  /\ symbol_tokens relabelled_file
     = ["A"; "*"; "0"; "*"; "1"; "0"; "*"; "Z"; "*"; "0"]
  /\ List.concat (List.map rule_tokens relabelled_parsed.1)
     = symbol_tokens relabelled_file
  /\ length (symbol_tokens relabelled_file)
     = (5 * length relabelled_parsed.1)%nat
  /\ tup_buf (end_of_file relabelled_file) = []
  /\ relabelled_parsed.1 = rules (end_of_file relabelled_file)
  /\ relabelled_parsed.2 = cfg (end_of_file relabelled_file).
Proof.
  assert (Hr : _read_rules relabelled_file = inl relabelled_parsed).
  { vm_compute. reflexivity. }
  split; [exact Hr|]. split; [vm_compute; reflexivity|].
  exact (read_rules_returns relabelled_file _ _ Hr).
Defined.

End Tokens.
